(** * F00M/foom: the pending-message backend ([server.js])

    A shallow embedding of [server.js] and the properties of its
    hex-extraction heuristic, of its two outbound fetchers and of the
    [GET /pending] handler.

    Layout: the JavaScript runtime the server relies on (values, truthiness,
    property reads, string conversion, the global regular-expression match,
    insertion-ordered sets), then the effects (exceptions, network requests,
    console output), then the server's own functions, then the theorems. *)

From Stdlib Require Import List String Ascii Bool Arith ZArith Lia DecimalString.
Import ListNotations.
Local Open Scope string_scope.
Local Set Warnings "-register-all,-notation-for-abbreviation".

(* ===================================================================== *)
(** * The JavaScript runtime                                              *)
(* ===================================================================== *)

Module JS.

(** A JSON number is an IEEE-754 double.  The server never computes with the
    numbers it receives: it only tests them for truthiness and splices them
    into template literals.  A number is represented by these two
    observations. *)
Record number : Type := { num_is_zero : bool; num_text : string }.

(** The values [JSON.parse] can produce, and [undefined] for the result of
    reading a property that is not there.  An object is the list of its own
    properties; a read takes the first binding of the key. *)
Inductive value : Type :=
| VUndefined
| VNull
| VBool (b : bool)
| VNum (n : number)
| VStr (s : string)
| VArr (elems : list value)
| VObj (props : list (string * value)).

(** [Error] objects: the server only ever reads [e.message]. *)
Record error : Type := { err_name : string; message : string }.

Definition TypeError (msg : string) : error :=
  {| err_name := "TypeError"; message := msg |}.

Definition Error (msg : string) : error :=
  {| err_name := "Error"; message := msg |}.

(** Evaluation of an expression either yields a value or throws. *)
Inductive outcome (A : Type) : Type :=
| Normal (a : A)
| Throw (e : error).
Arguments Normal {A} a.
Arguments Throw {A} e.

Definition obind {A B} (o : outcome A) (k : A -> outcome B) : outcome B :=
  match o with
  | Normal a => k a
  | Throw e => Throw e
  end.

(** ToBoolean. *)
Definition truthy (v : value) : bool :=
  match v with
  | VUndefined | VNull => false
  | VBool b => b
  | VNum n => negb (num_is_zero n)
  | VStr EmptyString => false
  | VStr (String _ _) => true
  | VArr _ | VObj _ => true
  end.

Definition nullish (v : value) : bool :=
  match v with
  | VUndefined | VNull => true
  | _ => false
  end.

Fixpoint own (k : string) (props : list (string * value)) : option value :=
  match props with
  | [] => None
  | (k', v) :: rest => if String.eqb k k' then Some v else own k rest
  end.

(** [v?.k].  The property names the server reads ([executorResult],
    [status], [srcTxHash], [messages], ...) are defined on no built-in
    prototype, so on a primitive or an array the read gives [undefined], and
    on an object it gives the own property or [undefined]. *)
Definition opt_get (v : value) (k : string) : value :=
  match v with
  | VObj props =>
      match own k props with
      | Some x => x
      | None => VUndefined
      end
  | _ => VUndefined
  end.

(** [v.k]: as [v?.k], but reading a property of [null] or [undefined]
    throws. *)
Definition get (v : value) (k : string) : outcome value :=
  if nullish v
  then Throw (TypeError ("Cannot read properties of " ++
                         (match v with VNull => "null" | _ => "undefined" end) ++
                         " (reading '" ++ k ++ "')"))
  else Normal (opt_get v k).

(** [a || b] on operands whose evaluation cannot throw. *)
Definition or_val (a b : value) : value :=
  if truthy a then a else b.

(** [a || b], where evaluating either operand may throw; [b] is only
    consulted when [a] is falsy. *)
Definition or_else (a b : outcome value) : outcome value :=
  obind a (fun x => if truthy x then Normal x else b).

(** A [string | null] as a value. *)
Definition of_nullable (o : option string) : value :=
  match o with
  | Some s => VStr s
  | None => VNull
  end.

(** Decimal rendering of an integer-valued number in a template literal. *)
Definition dec (z : Z) : string :=
  NilZero.string_of_int (Z.to_int z).

(** [String.prototype.toUpperCase] and [String.prototype.toLowerCase] are
    the case mappings of Unicode.  Their tables belong to the runtime, not
    to the server: they are parameters of the model.  Strings are the UTF-8
    bytes of the text. *)
Class Runtime : Type := {
  toUpperCase : string -> string;
  toLowerCase : string -> string
}.

(** The change of case of the ASCII letters alone, byte by byte. *)
Definition upper_ascii (c : ascii) : ascii :=
  let n := nat_of_ascii c in
  if ((97 <=? n) && (n <=? 122))%nat then ascii_of_nat (n - 32) else c.

Fixpoint ascii_toUpperCase (s : string) : string :=
  match s with
  | EmptyString => EmptyString
  | String c rest => String (upper_ascii c) (ascii_toUpperCase rest)
  end.

Definition lower_ascii (c : ascii) : ascii :=
  let n := nat_of_ascii c in
  if ((65 <=? n) && (n <=? 90))%nat then ascii_of_nat (n + 32) else c.

Fixpoint ascii_toLowerCase (s : string) : string :=
  match s with
  | EmptyString => EmptyString
  | String c rest => String (lower_ascii c) (ascii_toLowerCase rest)
  end.

(** [v.toUpperCase()]: only a string has that method; on every other value
    the property is missing or not a function and the call throws. *)
Definition call_toUpperCase {R : Runtime} (v : value) : outcome string :=
  match v with
  | VStr s => Normal (toUpperCase s)
  | VUndefined | VNull =>
      Throw (TypeError "Cannot read properties of undefined (reading 'toUpperCase')")
  | _ => Throw (TypeError "execStatus.toUpperCase is not a function")
  end.

(** ToString, as a template literal applies it.  An array joins its elements
    with commas ([null] and [undefined] elements print as nothing); an object
    prints as [[object Object]] unless it has an own [toString] property:
    that property, parsed from JSON, is never callable, [valueOf] then
    returns the object itself and the conversion throws. *)
Fixpoint js_to_string (v : value) : outcome string :=
  match v with
  | VUndefined => Normal "undefined"
  | VNull => Normal "null"
  | VBool true => Normal "true"
  | VBool false => Normal "false"
  | VNum n => Normal (num_text n)
  | VStr s => Normal s
  | VArr elems =>
      (fix join (l : list value) : outcome string :=
         match l with
         | [] => Normal EmptyString
         | x :: rest =>
             obind (if nullish x then Normal EmptyString else js_to_string x)
               (fun s =>
                  match rest with
                  | [] => Normal s
                  | _ :: _ => obind (join rest) (fun t => Normal (s ++ "," ++ t))
                  end)
         end) elems
  | VObj props =>
      match own "toString" props with
      | Some _ => Throw (TypeError "Cannot convert object to primitive value")
      | None => Normal "[object Object]"
      end
  end.

(** The values a [for ... of] loop visits: the elements of an array, the
    characters of a string; nothing else the server can hold is iterable. *)
Fixpoint chars (s : string) : list value :=
  match s with
  | EmptyString => []
  | String c rest => VStr (String c EmptyString) :: chars rest
  end.

Definition iterate (v : value) : outcome (list value) :=
  match v with
  | VArr elems => Normal elems
  | VStr s => Normal (chars s)
  | _ => Throw (TypeError "msgs is not iterable")
  end.

(** ** The regular expression [/0x[0-9a-fA-F]{64,}/g] *)

Definition is_hex_digit (c : ascii) : bool :=
  let n := nat_of_ascii c in
  (((48 <=? n) && (n <=? 57)) || ((97 <=? n) && (n <=? 102)) ||
   ((65 <=? n) && (n <=? 70)))%nat.

(** The greedy run [[0-9a-fA-F]*] at the head of [s], and what follows it. *)
Fixpoint span_hex (s : string) : string * string :=
  match s with
  | String c rest =>
      if is_hex_digit c
      then let (h, tl) := span_hex rest in (String c h, tl)
      else (EmptyString, s)
  | EmptyString => (EmptyString, EmptyString)
  end.

(** One attempt of the pattern at the head of [s]: the match and the rest of
    the text.  Nothing follows the quantifier in the pattern, so the greedy
    run is the match whenever it is long enough. *)
Definition match_at (s : string) : option (string * string) :=
  match s with
  | String "0" (String "x" rest) =>
      let (h, tl) := span_hex rest in
      if (64 <=? String.length h)%nat then Some ("0x" ++ h, tl) else None
  | _ => None
  end.

(** The loop of a global match: try the pattern at the current position; on
    success resume after the match, otherwise one character further on.
    [fuel] bounds the number of attempts. *)
Fixpoint exec_loop (fuel : nat) (s : string) : list string :=
  match fuel with
  | O => []
  | S fuel' =>
      match match_at s with
      | Some (m, tl) => m :: exec_loop fuel' tl
      | None =>
          match s with
          | EmptyString => []
          | String _ rest => exec_loop fuel' rest
          end
      end
  end.

Definition all_matches (s : string) : list string :=
  exec_loop (S (String.length s)) s.

(** [text.match(/0x[0-9a-fA-F]{64,}/g)]: the matches in order of position,
    [null] when there is none. *)
Definition match_hex (text : string) : option (list string) :=
  match all_matches text with
  | [] => None
  | ms => Some ms
  end.

(** ** [Set] of strings: insertion-ordered, [[...set]] lists that order *)

Definition Set_has (s : list string) (x : string) : bool :=
  existsb (String.eqb x) s.

Definition Set_add (s : list string) (x : string) : list string :=
  if Set_has s x then s else s ++ [x].

Definition new_Set (l : list string) : list string :=
  fold_left Set_add l [].

End JS.
Import JS.

Declare Scope js_scope.
Delimit Scope js_scope with js.
Infix "|||" := or_val (at level 50, left associativity) : js_scope.
Infix "||?" := or_else (at level 50, left associativity) : js_scope.
Local Open Scope js_scope.

(* ===================================================================== *)
(** * Effects: exceptions, the network, the console                       *)
(* ===================================================================== *)

Module IO.

Record request : Type := {
  req_url : string;
  req_headers : list (string * string)
}.

(** What the server looks at in a [Response]: the status, and the body read
    as JSON ([r.json()]) or as text ([r.text()]); either read may reject. *)
Record response : Type := {
  status : Z;
  json : outcome value;
  text : outcome string
}.

(** [r.ok]: the status is in the range 200-299. *)
Definition ok (r : response) : bool :=
  ((200 <=? status r) && (status r <=? 299))%Z.

(** Everything the server does to the outside world, in order. *)
Inductive event : Type :=
| EvFetch (req : request)
| EvWarn (args : list string)
| EvError (label : string) (e : error).

Definition trace : Type := list event.

(** The network answers a request with a response or rejects it (timeout,
    DNS, connection failure); the answer may depend on all that happened
    before. *)
Definition network : Type := trace -> request -> outcome response.

(** A computation runs from a trace, extends it, and returns or throws.
    Effects made before a throw stay in the trace. *)
Definition M (A : Type) : Type := trace -> outcome A * trace.

Definition ret {A} (a : A) : M A := fun t => (Normal a, t).

Definition bind {A B} (c : M A) (k : A -> M B) : M B :=
  fun t =>
    match c t with
    | (Normal a, t') => k a t'
    | (Throw e, t') => (Throw e, t')
    end.

Definition throw {A} (e : error) : M A := fun t => (Throw e, t).

Definition lift {A} (o : outcome A) : M A := fun t => (o, t).

(** [try { c } catch (e) { h e }]. *)
Definition try_catch {A} (c : M A) (h : error -> M A) : M A :=
  fun t =>
    match c t with
    | (Normal a, t') => (Normal a, t')
    | (Throw e, t') => h e t'
    end.

Definition fetch (net : network) (req : request) : M response :=
  fun t => (net t req, (t ++ [EvFetch req])%list).

Definition console_warn (args : list string) : M unit :=
  fun t => (Normal tt, (t ++ [EvWarn args])%list).

Definition console_error (label : string) (e : error) : M unit :=
  fun t => (Normal tt, (t ++ [EvError label e])%list).

End IO.
Import IO.

Declare Scope io_scope.
Delimit Scope io_scope with io.
Notation "x <- c ;; k" := (bind c (fun x => k))
  (at level 61, c at next level, right associativity) : io_scope.
Notation "c ;; k" := (bind c (fun _ => k))
  (at level 61, right associativity) : io_scope.
Local Open Scope io_scope.

(* ===================================================================== *)
(** * server.js                                                           *)
(* ===================================================================== *)

(** The object [{ sender32, payload }] the heuristic returns; [None] is
    [null]. *)
Record guess : Type := {
  g_sender32 : option string;
  g_payload : option string
}.

(** An entry of [results]. *)
Record summary : Type := {
  srcTxHash : value;
  dstEid : value;
  sender32 : value;
  payload : value;
  statusSummary : value;
  lzTxPage : string
}.

(** The JSON bodies [GET /pending] answers with. *)
Inductive body : Type :=
| JsonOk (owner : string) (count : nat) (results : list summary)
| JsonErr (error : string).

Record http_response : Type := {
  http_status : Z;
  http_body : body
}.

(** heuristics to extract sender32/payload from raw HTML or JSON *)
Definition guessHexesFromText (text : string) : guess :=
  let hexes := match match_hex text with Some ms => ms | None => [] end in
  let uniq := new_Set hexes in
  let senders := filter (fun h => String.length h =? 66)%nat uniq in
  let payloads :=
    filter (fun h => (66 <? String.length h) && (String.length h mod 2 =? 0))%nat uniq in
  {| g_sender32 := if (List.length senders =? 0)%nat then None else nth_error senders 0;
     g_payload := if (List.length payloads =? 0)%nat then None else nth_error payloads 0 |}.

(* ===================================================================== *)
(** * The specification's vocabulary                                      *)
(* ===================================================================== *)

Module Spec.

Fixpoint all_hex (s : string) : bool :=
  match s with
  | EmptyString => true
  | String c rest => is_hex_digit c && all_hex rest
  end.

(** [0x] followed by 64 or more hexadecimal characters. *)
Definition hex_token (s : string) : Prop :=
  exists h, s = "0x" ++ h /\ all_hex h = true /\ 64 <= String.length h.

Definition starts_with_token (s : string) : Prop :=
  exists t r, hex_token t /\ s = t ++ r.

Definition hex_head (s : string) : bool :=
  match s with
  | String c _ => is_hex_digit c
  | EmptyString => false
  end.

(** [scans s ms]: [ms] lists, from left to right, the tokens of [s] a scan
    finds: each one starts at the first position after the previous one
    where a token starts, and extends as far as hexadecimal characters go. *)
Inductive scans : string -> list string -> Prop :=
| scans_done s :
    (forall p q, s = p ++ q -> ~ starts_with_token q) ->
    scans s []
| scans_next pre m tl ms :
    (forall p q, pre = p ++ q -> q <> EmptyString ->
                 ~ starts_with_token (q ++ m ++ tl)) ->
    hex_token m ->
    hex_head tl = false ->
    scans tl ms ->
    scans (pre ++ m ++ tl) (m :: ms).

(** Removal of repeated strings that keeps the first occurrence of each. *)
Fixpoint dedup (l : list string) : list string :=
  match l with
  | [] => []
  | x :: rest => x :: filter (fun y => negb (String.eqb x y)) (dedup rest)
  end.

(** The two classification rules. *)
Definition is_sender32 (h : string) : bool :=
  (String.length h =? 66)%nat.

Definition is_payload (h : string) : bool :=
  ((66 <? String.length h) && Nat.even (String.length h))%nat.

(** The first truthy value of a probing chain, [dflt] when there is none. *)
Fixpoint first_truthy (candidates : list value) (dflt : value) : value :=
  match candidates with
  | [] => dflt
  | v :: rest => if truthy v then v else first_truthy rest dflt
  end.

(** Equality of strings up to the case of ASCII letters. *)
Definition ci_eq (a b : string) : bool :=
  String.eqb (ascii_toUpperCase a) (ascii_toUpperCase b).

(** The executor status of a record: the nested [executorResult.status]
    before the flat [executorStatus]. *)
Definition resolved_status (m : value) : value :=
  first_truthy [opt_get (opt_get m "executorResult") "status";
                opt_get m "executorStatus"] VNull.

(** The transaction hash of a record: [srcTxHash], then [txHash], then
    [tx.txHash]. *)
Definition resolved_hash (m : value) : value :=
  first_truthy [opt_get m "srcTxHash"; opt_get m "txHash"]
               (opt_get (opt_get m "tx") "txHash").

Definition structured_sender (m : value) : value :=
  first_truthy [opt_get m "sender32"; opt_get m "sender"] VNull.

Definition structured_payload (m : value) : value :=
  first_truthy [opt_get m "payload"; opt_get m "payloadHex"; opt_get m "data"] VNull.

Definition resolved_dst (m : value) : value :=
  first_truthy [opt_get m "dstEid"; opt_get m "dst_eid"; opt_get m "dst"] VNull.

(** The status is a string, not empty, that the runtime upper-cases to
    [WAITING]. *)
Definition waiting {R : Runtime} (st : value) : bool :=
  match st with
  | VStr s => truthy st && String.eqb (toUpperCase s) "WAITING"
  | _ => false
  end.

(** A record qualifies when its status is [WAITING] and a transaction hash
    resolves. *)
Definition qualifies {R : Runtime} (m : value) : bool :=
  waiting (resolved_status m) && truthy (resolved_hash m).

(** The status is a string whenever there is one. *)
Definition status_is_text (m : value) : bool :=
  match resolved_status m with
  | VStr _ => true
  | st => negb (truthy st)
  end.

(** The value can be spliced into a template literal. *)
Definition printable (v : value) : bool :=
  match js_to_string v with
  | Normal _ => true
  | Throw _ => false
  end.

(** The record goes through a turn of the loop without a throw: its status
    is a string whenever there is one, and its hash can be printed when it
    qualifies. *)
Definition well_formed {R : Runtime} (m : value) : bool :=
  status_is_text m && (negb (qualifies m) || printable (resolved_hash m)).

(** Both the sender and the payload come with the record. *)
Definition structured (m : value) : bool :=
  truthy (structured_sender m) && truthy (structured_payload m).

(** A value found by the heuristic fills a field that is still unresolved
    and never replaces a resolved one. *)
Definition fill (field : value) (guessed : option string) : value :=
  if truthy field then field
  else match guessed with
       | Some (String _ _ as g) => VStr g
       | _ => field
       end.

(** The sender and payload after the detail page [html] was consulted. *)
Definition enrich (sender0 payload0 : value) (html : option string) : value * value :=
  match html with
  | Some (String _ _ as t) =>
      (fill sender0 (g_sender32 (guessHexesFromText t)),
       fill payload0 (g_payload (guessHexesFromText t)))
  | _ => (sender0, payload0)
  end.

End Spec.
Import Spec.

Section Server.

Context {R : Runtime}.

(** The configuration read from the environment when the process starts. *)
Variables OWNER LZ_API_BASE LZ_TX_BASE : string.
Variable net : network.

Definition fetchMessagesByOwner (owner : string) (page limit : Z) : M value :=
  try_catch
    (let url := LZ_API_BASE ++ "/messages?address=" ++ owner ++
                "&page=" ++ dec page ++ "&limit=" ++ dec limit in
     r <- fetch net {| req_url := url; req_headers := [] |};;
     if negb (ok r) then throw (Error ("LZ API " ++ dec (status r)))
     else
       j <- lift (json r);;
       lift (get j "messages" ||? Normal (VArr [])))
    (fun e => console_warn ["LZ API error:"; message e];; ret (VArr [])).

Definition fetchTxHtml (txHash : value) : M (option string) :=
  try_catch
    (h <- lift (js_to_string txHash);;
     let url := LZ_TX_BASE ++ "/" ++ h in
     r <- fetch net {| req_url := url;
                       req_headers := [("User-Agent", "auto-scan-worker/1.0")] |};;
     if negb (ok r) then ret None
     else
       t <- lift (text r);;
       ret (Some t))
    (fun _ => ret None).

(** One turn of the loop of [GET /pending] on the record [m]: [None] when the
    turn ends in [continue], the entry pushed on [out] otherwise. *)
Definition pending_entry (m : value) : M (option summary) :=
  let execStatus :=
    opt_get (opt_get m "executorResult") "status" ||| opt_get m "executorStatus" ||| VNull in
  if negb (truthy execStatus) then ret None
  else
    up <- lift (call_toUpperCase execStatus);;
    if negb (String.eqb up "WAITING") then ret None
    else
      txHash <- lift (get m "srcTxHash" ||? get m "txHash" ||?
                      Normal (opt_get (opt_get m "tx") "txHash"));;
      if negb (truthy txHash) then ret None
      else
        sender0 <- lift (get m "sender32" ||? get m "sender" ||? Normal VNull);;
        payload0 <- lift (get m "payload" ||? get m "payloadHex" ||? get m "data" ||?
                          Normal VNull);;
        sp <- (if negb (truthy sender0) || negb (truthy payload0)
               then
                 html <- fetchTxHtml txHash;;
                 if truthy (of_nullable html)
                 then
                   let g := guessHexesFromText
                              (match html with Some t => t | None => EmptyString end) in
                   let sender1 :=
                     if negb (truthy sender0) && truthy (of_nullable (g_sender32 g))
                     then of_nullable (g_sender32 g) else sender0 in
                   let payload1 :=
                     if negb (truthy payload0) && truthy (of_nullable (g_payload g))
                     then of_nullable (g_payload g) else payload0 in
                   ret (sender1, payload1)
                 else ret (sender0, payload0)
               else ret (sender0, payload0));;
        dst <- lift (get m "dstEid" ||? get m "dst_eid" ||? get m "dst" ||? Normal VNull);;
        page <- lift (js_to_string txHash);;
        ret (Some {| srcTxHash := txHash;
                     dstEid := dst;
                     sender32 := fst sp;
                     payload := snd sp;
                     statusSummary := execStatus;
                     lzTxPage := LZ_TX_BASE ++ "/" ++ page |}).

(** [for (const m of msgs) { ... out.push(...) }]. *)
Fixpoint pending_loop (msgs : list value) (out : list summary) : M (list summary) :=
  match msgs with
  | [] => ret out
  | m :: rest =>
      e <- pending_entry m;;
      pending_loop rest (match e with Some s => (out ++ [s])%list | None => out end)
  end.

(** The body of the handler's [try]: what it hands to [res.json]. *)
Definition pending_results : M (list summary) :=
  let owner := OWNER in
  fetched <- fetchMessagesByOwner owner 1 50;;
  msgs <- lift (iterate fetched);;
  pending_loop msgs [].

(** [app.get("/pending", ...)]. *)
Definition pending : M http_response :=
  try_catch
    (out <- pending_results;;
     ret {| http_status := 200; http_body := JsonOk OWNER (List.length out) out |})
    (fun e =>
       console_error "Error /pending:" e;;
       ret {| http_status := 500; http_body := JsonErr (message e) |}).

(** The request [fetchTxHtml] sends for a hash printed as [h]. *)
Definition detail_request (h : string) : request :=
  {| req_url := LZ_TX_BASE ++ "/" ++ h;
     req_headers := [("User-Agent", "auto-scan-worker/1.0")] |}.

(** The request [fetchMessagesByOwner] sends. *)
Definition listing_request (owner : string) (page limit : Z) : request :=
  {| req_url := LZ_API_BASE ++ "/messages?address=" ++ owner ++
                "&page=" ++ dec page ++ "&limit=" ++ dec limit;
     req_headers := [] |}.

(** What the [try] block of [fetchMessagesByOwner] makes of the answer of
    the network. *)
Definition listing_outcome (answer : outcome response) : outcome value :=
  obind answer (fun r =>
    if negb (ok r) then Throw (Error ("LZ API " ++ dec (status r)))
    else obind (json r) (fun j => get j "messages" ||? Normal (VArr []))).

(** The document [fetchTxHtml] makes of the answer of the network. *)
Definition detail_document (answer : outcome response) : option string :=
  match answer with
  | Normal r =>
      if ok r
      then match text r with
           | Normal t => Some t
           | Throw _ => None
           end
      else None
  | Throw _ => None
  end.

(** The entry of [results] for the record [m], given its hash as printed
    and the sender and payload settled on. *)
Definition entry_of (m : value) (h : string) (sp : value * value) : summary :=
  {| srcTxHash := resolved_hash m;
     dstEid := resolved_dst m;
     sender32 := fst sp;
     payload := snd sp;
     statusSummary := resolved_status m;
     lzTxPage := LZ_TX_BASE ++ "/" ++ h |}.

(** [s] is the entry of the record [m], whatever sender and payload were
    settled on. *)
Definition entry_for (m : value) (s : summary) : Prop :=
  exists h sp, js_to_string (resolved_hash m) = Normal h /\ s = entry_of m h sp.

End Server.

(** The requests for detail pages a run of the loop over [msgs] sends when
    no turn throws: one for each qualifying record that lacks a sender or a
    payload, in the order of the records. *)
Definition planned_request {R : Runtime} (LZ_TX_BASE : string) (m : value)
  : list event :=
  if qualifies m && negb (structured m)
  then match js_to_string (resolved_hash m) with
       | Normal h => [EvFetch (detail_request LZ_TX_BASE h)]
       | Throw _ => []
       end
  else [].

Definition planned_requests {R : Runtime} (LZ_TX_BASE : string)
    (msgs : list value) : list event :=
  flat_map (planned_request LZ_TX_BASE) msgs.

(* ===================================================================== *)
(** * Start of the process                                                *)
(* ===================================================================== *)

Module Startup.

(** [process.env], once [dotenv] has loaded the [.env] file. *)
Definition environment : Type := string -> option string.

(** [process.env.K || dflt]: the variable when it is set and not empty. *)
Definition env_or (env : environment) (k dflt : string) : string :=
  match env k with
  | Some (String _ _ as v) => v
  | _ => dflt
  end.

Record config : Type := {
  OWNER : string;
  PORT : value;
  LZ_API_BASE : string;
  LZ_TX_BASE : string
}.

(** The process exits at once, dies of the exception [app.listen] raises
    (a port out of range, an address in use), or listens. *)
Inductive started : Type :=
| Exited (code : Z) (stderr : string)
| Crashed (e : error)
| Listening (cfg : config) (stdout : string).

(** Lines 11 to 19 and 115 to 117: the constants, the check of [OWNER] and
    the call of [app.listen]; [listen] says what binding the port gives. *)
Definition start {R : Runtime} (listen : value -> outcome unit)
    (env : environment) : started :=
  let OWNER := toLowerCase (env_or env "OWNER" EmptyString) in
  let PORT :=
    match env "PORT" with
    | Some (String _ _ as p) => VStr p
    | _ => VNum {| num_is_zero := false; num_text := "3000" |}
    end in
  let LZ_API_BASE :=
    env_or env "LZSCAN_API_BASE" "https://api.testnet.layerzeroscan.com" in
  let LZ_TX_BASE :=
    env_or env "LZSCAN_TX_BASE" "https://testnet.layerzeroscan.com/tx" in
  if negb (truthy (VStr OWNER))
  then Exited 1 "Please set OWNER env var (the wallet address that sent the bridge)."
  else
    match listen PORT with
    | Throw e => Crashed e
    | Normal _ =>
        Listening
          {| OWNER := OWNER; PORT := PORT;
             LZ_API_BASE := LZ_API_BASE; LZ_TX_BASE := LZ_TX_BASE |}
          ("Server listening on " ++
           match js_to_string PORT with Normal p => p | Throw _ => EmptyString end ++
           " | OWNER=" ++ OWNER)
    end.

(** [GET /pending] on the process started from [env], when it listens. *)
Definition serve_pending {R : Runtime} (listen : value -> outcome unit)
    (env : environment) (net : network) : option (M http_response) :=
  match start listen env with
  | Listening cfg _ =>
      Some (pending (OWNER cfg) (LZ_API_BASE cfg) (LZ_TX_BASE cfg) net)
  | _ => None
  end.

End Startup.

(* ===================================================================== *)
(** * Sample data                                                         *)
(* ===================================================================== *)

Module Sample.

Definition hex64 : string :=
  "00112233445566778899aAbBcCdDeEfF00112233445566778899aabbccddeeff".

(** A 32-byte word and a 64-byte word, with their [0x] prefix. *)
Definition word32 : string := "0x" ++ hex64.
Definition word64 : string := "0x" ++ hex64 ++ hex64.

(** A detail page that shows a payload, an odd-length run, and a sender
    twice. *)
Definition page : string :=
  "<td>" ++ word64 ++ "</td><p>" ++ word32 ++ "a " ++ word32 ++ "," ++
  word64 ++ " " ++ word32 ++ "</p> 0x12".

(** The configuration of a test deployment. *)
Definition owner : string := "0x52908400098527886e0f7030069857d2e4169ee7".
Definition api_base : string := "https://api.testnet.layerzeroscan.com".
Definition tx_base : string := "https://testnet.layerzeroscan.com/tx".

Definition zero : number := {| num_is_zero := true; num_text := "0" |}.
Definition one : number := {| num_is_zero := false; num_text := "1" |}.
Definition eid : number := {| num_is_zero := false; num_text := "40161" |}.

(** A network on which the listing answers with [msgs] and every detail
    page is [page]; the two requests differ by their headers. *)
Definition serving (msgs : list value) : network :=
  fun _ req =>
    match req_headers req with
    | [] =>
        Normal {| status := 200;
                  json := Normal (VObj [("messages", VArr msgs)]);
                  text := Normal "{...}" |}
    | _ :: _ =>
        Normal {| status := 200;
                  json := Throw (Error "Unexpected token < in JSON at position 0");
                  text := Normal page |}
    end.

(** A network that is down, and one that answers 503 to everything. *)
Definition down : network :=
  fun _ _ => Throw (Error "connect ECONNREFUSED").

Definition overloaded : network :=
  fun _ _ =>
    Normal {| status := 503;
              json := Throw (Error "Unexpected token < in JSON at position 0");
              text := Normal "<h1>Service Unavailable</h1>" |}.

(** Raw messages of the shapes the claims speak of. *)
Definition waiting_lower : value :=
  VObj [("executorResult", VObj [("status", VStr "waiting")]);
        ("srcTxHash", VStr "0xaaa");
        ("dstEid", VNum eid);
        ("sender32", VStr word32);
        ("payload", VStr word64)].

Definition waiting_bare : value :=
  VObj [("executorStatus", VStr "WAITING"); ("txHash", VStr "0xbbb")].

Definition delivered : value :=
  VObj [("executorStatus", VStr "SUCCESS"); ("srcTxHash", VStr "0xccc")].

Definition numeric_status : value :=
  VObj [("executorStatus", VNum one); ("srcTxHash", VStr "0xddd")].

Definition object_hash : value :=
  VObj [("executorStatus", VStr "WAITING");
        ("srcTxHash", VObj [("toString", VNum one)]);
        ("sender32", VStr word32);
        ("payload", VStr word64)].

Definition loose_fields : value :=
  VObj [("executorStatus", VStr "WAITING");
        ("srcTxHash", VStr "0xeee");
        ("sender", VStr "alice");
        ("data", VStr "0xabc")].

Definition empty_fields : value :=
  VObj [("executorResult", VObj [("status", VStr EmptyString)]);
        ("executorStatus", VStr "Waiting");
        ("srcTxHash", VStr EmptyString);
        ("txHash", VStr "0xfff");
        ("sender32", VStr EmptyString);
        ("sender", VNum zero);
        ("payload", VStr word64);
        ("dstEid", VNum zero);
        ("dst", VNum eid)].

(** A network on which the body of the listing has [messages] as its
    [messages] property, whatever that value is. *)
Definition listing (messages : value) : network :=
  fun _ req =>
    match req_headers req with
    | [] =>
        Normal {| status := 200;
                  json := Normal (VObj [("messages", messages)]);
                  text := Normal "{...}" |}
    | _ :: _ =>
        Normal {| status := 200;
                  json := Throw (Error "Unexpected token < in JSON at position 0");
                  text := Normal page |}
    end.

(** A network on which the listing answers with [msgs] and the detail pages
    are not found. *)
Definition pages_missing (msgs : list value) : network :=
  fun _ req =>
    match req_headers req with
    | [] =>
        Normal {| status := 200;
                  json := Normal (VObj [("messages", VArr msgs)]);
                  text := Normal "{...}" |}
    | _ :: _ =>
        Normal {| status := 404;
                  json := Throw (Error "Unexpected token < in JSON at position 0");
                  text := Normal "<h1>Not Found</h1>" |}
    end.

(** A runtime for the examples.  Its [toUpperCase] changes the ASCII
    letters and turns the dotless i (U+0131, the bytes 196 177) and the
    long s (U+017F, the bytes 197 191) into [I] and [S], which is what
    Unicode does to them; its [toLowerCase] changes the ASCII letters. *)
Fixpoint upper (s : string) : string :=
  match s with
  | EmptyString => EmptyString
  | String c rest =>
      match rest with
      | String d rest' =>
          if ((nat_of_ascii c =? 196) && (nat_of_ascii d =? 177))%nat
          then String "I" (upper rest')
          else if ((nat_of_ascii c =? 197) && (nat_of_ascii d =? 191))%nat
          then String "S" (upper rest')
          else String (upper_ascii c) (upper rest)
      | EmptyString => String (upper_ascii c) EmptyString
      end
  end.

Definition runtime : Runtime :=
  {| toUpperCase := upper; toLowerCase := ascii_toLowerCase |}.

(** A port can always be bound; no port can. *)
Definition listens : value -> outcome unit := fun _ => Normal tt.

Definition port_taken : value -> outcome unit :=
  fun _ => Throw (Error "listen EADDRINUSE: address already in use").

(** A status written with two dotless i. *)
Definition dotless_status : string :=
  String "w" (String "a" (String (ascii_of_nat 196) (String (ascii_of_nat 177)
    (String "t" (String (ascii_of_nat 196) (String (ascii_of_nat 177)
      (String "n" (String "g" EmptyString)))))))).

Definition waiting_dotless : value :=
  VObj [("executorStatus", VStr dotless_status);
        ("srcTxHash", VStr "0x111");
        ("sender32", VStr word32);
        ("payload", VStr word64)].

(** Two environments that differ by the case of [OWNER] only. *)
Definition env_lower : Startup.environment :=
  fun k => if String.eqb k "OWNER" then Some "0xabcdef" else None.

Definition env_mixed : Startup.environment :=
  fun k => if String.eqb k "OWNER" then Some "0xAbCdEf" else None.

End Sample.

(* ===================================================================== *)
(** * Properties of the runtime                                           *)
(* ===================================================================== *)

Section Strings.

Lemma length_app (a b : string) :
  String.length (a ++ b) = String.length a + String.length b.
Proof. induction a as [|c a IH]; simpl; [reflexivity | now rewrite IH]. Qed.

Lemma app_assoc_s (a b c : string) : (a ++ b) ++ c = a ++ (b ++ c).
Proof. induction a as [|x a IH]; simpl; [reflexivity | now rewrite IH]. Qed.

Lemma app_empty_r (a : string) : a ++ EmptyString = a.
Proof. induction a as [|x a IH]; simpl; [reflexivity | now rewrite IH]. Qed.

Lemma app_eq_empty (a b : string) :
  a ++ b = EmptyString -> a = EmptyString /\ b = EmptyString.
Proof. destruct a; simpl; [auto | discriminate]. Qed.

Lemma app_split (a : string) :
  forall b c d, a ++ b = c ++ d ->
    (exists q, c = a ++ q /\ b = q ++ d) \/ (exists q, a = c ++ q /\ d = q ++ b).
Proof.
  induction a as [|x a IH]; intros b c d E; simpl in E.
  - left. now exists c.
  - destruct c as [|y c]; simpl in E.
    + right. exists (String x a). now subst d.
    + inversion E as [[Hx E']]. subst y.
      destruct (IH _ _ _ E') as [(q & -> & ->) | (q & -> & ->)];
        [left | right]; now exists q.
Qed.

Lemma all_hex_app (a b : string) :
  all_hex (a ++ b) = all_hex a && all_hex b.
Proof.
  induction a as [|c a IH]; simpl; [reflexivity |].
  now rewrite IH, andb_assoc.
Qed.

Lemma span_hex_spec (s : string) :
  forall h tl, span_hex s = (h, tl) ->
    s = h ++ tl /\ all_hex h = true /\ hex_head tl = false.
Proof.
  induction s as [|c s IH]; simpl; intros h tl E.
  - inversion E; subst. auto.
  - destruct (is_hex_digit c) eqn:Hc.
    + destruct (span_hex s) as [h' tl'] eqn:Es. inversion E; subst.
      destruct (IH h' tl eq_refl) as (-> & Hh & Ht).
      simpl. rewrite Hc, Hh. auto.
    + inversion E; subst. simpl. auto.
Qed.

Lemma span_hex_app (h r : string) :
  all_hex h = true ->
  span_hex (h ++ r) = (h ++ fst (span_hex r), snd (span_hex r)).
Proof.
  induction h as [|c h IH]; simpl; intros H.
  - now destruct (span_hex r).
  - apply andb_prop in H as [Hc Hh]. rewrite Hc, (IH Hh). reflexivity.
Qed.

Lemma span_hex_stop (s : string) :
  hex_head s = false -> span_hex s = (EmptyString, s).
Proof. destruct s as [|c s]; simpl; [reflexivity | now intros ->]. Qed.

(** A run of hexadecimal characters that ends where they end is the greedy
    run. *)
Lemma span_hex_maximal (h tl : string) :
  all_hex h = true -> hex_head tl = false -> span_hex (h ++ tl) = (h, tl).
Proof.
  intros Hh Ht. rewrite (span_hex_app h tl Hh), (span_hex_stop tl Ht).
  simpl. now rewrite app_empty_r.
Qed.

Lemma token_length (m : string) : hex_token m -> 66 <= String.length m.
Proof.
  intros (h & -> & _ & L). simpl. lia.
Qed.

Lemma match_at_Some (s m tl : string) :
  match_at s = Some (m, tl) ->
  s = m ++ tl /\ hex_token m /\ hex_head tl = false.
Proof.
  unfold match_at.
  destruct s as [|c0 s]; [discriminate|].
  destruct c0 as [[] [] [] [] [] [] [] []]; try discriminate.
  destruct s as [|c1 s]; [discriminate|].
  destruct c1 as [[] [] [] [] [] [] [] []]; try discriminate.
  destruct (span_hex s) as [h tl'] eqn:E.
  destruct (64 <=? String.length h)%nat eqn:L; [|discriminate].
  intros H; inversion H; subst.
  destruct (span_hex_spec _ _ _ E) as (-> & Hh & Ht).
  apply Nat.leb_le in L.
  repeat split; auto.
  exists h. auto.
Qed.

Lemma match_at_None (s : string) :
  match_at s = None -> ~ starts_with_token s.
Proof.
  intros N (t & r & (h & -> & Hh & L) & ->).
  cbn [match_at append] in N.
  rewrite (span_hex_app h r Hh) in N.
  destruct (64 <=? String.length (h ++ fst (span_hex r)))%nat eqn:E; [discriminate|].
  clear N.
  apply Nat.leb_gt in E. rewrite length_app in E. lia.
Qed.

End Strings.

Section Scanning.

Lemma scans_skip (c : ascii) (rest : string) (ms : list string) :
  ~ starts_with_token (String c rest) ->
  scans rest ms ->
  scans (String c rest) ms.
Proof.
  intros Hc H. destruct H as [s Hnone | pre m tl ms Hpre Hm Htl Hrest].
  - apply scans_done. intros [|c' p] q E; simpl in E.
    + now subst q.
    + inversion E; subst. now apply (Hnone p q).
  - change (String c (pre ++ m ++ tl)) with (String c pre ++ m ++ tl).
    apply scans_next; auto.
    intros [|c' p] q E Hq; simpl in E.
    + now subst q.
    + inversion E; subst. now apply (Hpre p q).
Qed.

Lemma scans_empty : scans EmptyString [].
Proof.
  apply scans_done. intros p q E (t & r & Ht & ->).
  symmetry in E. apply app_eq_empty in E as [_ E].
  apply app_eq_empty in E as [-> _].
  apply token_length in Ht. simpl in Ht. lia.
Qed.

(** With enough fuel the loop of the global match computes a scan. *)
Lemma exec_loop_scans (fuel : nat) :
  forall s, String.length s < fuel -> scans s (exec_loop fuel s).
Proof.
  induction fuel as [|fuel IH]; intros s L; [lia|].
  cbn [exec_loop].
  destruct (match_at s) as [[m tl]|] eqn:E.
  - destruct (match_at_Some _ _ _ E) as (-> & Hm & Htl).
    change (m ++ tl) with (EmptyString ++ m ++ tl).
    apply scans_next; auto.
    + intros p q Hp Hq. symmetry in Hp. apply app_eq_empty in Hp as [_ ->].
      now elim Hq.
    + apply IH. rewrite length_app in L. apply token_length in Hm. lia.
  - destruct s as [|c rest].
    + apply scans_empty.
    + apply scans_skip.
      * now apply match_at_None.
      * apply IH. simpl in L. lia.
Qed.

Lemma all_matches_scans (text : string) : scans text (all_matches text).
Proof. apply exec_loop_scans. lia. Qed.

Lemma scans_tokens (s : string) (ms : list string) :
  scans s ms -> Forall hex_token ms.
Proof. induction 1; constructor; auto. Qed.

(** Two maximal tokens at the head of the same text are the same. *)
Lemma token_maximal_unique (m1 tl1 m2 tl2 : string) :
  hex_token m1 -> hex_head tl1 = false ->
  hex_token m2 -> hex_head tl2 = false ->
  m1 ++ tl1 = m2 ++ tl2 -> m1 = m2 /\ tl1 = tl2.
Proof.
  intros (h1 & -> & H1 & _) T1 (h2 & -> & H2 & _) T2 E.
  simpl in E. inversion E as [E'].
  pose proof (span_hex_maximal h1 tl1 H1 T1) as S1.
  rewrite E', (span_hex_maximal h2 tl2 H2 T2) in S1.
  inversion S1. auto.
Qed.

(** A text has one scan only. *)
Lemma scans_unique (s : string) (l1 : list string) :
  scans s l1 -> forall l2, scans s l2 -> l1 = l2.
Proof.
  induction 1 as [s Hnone | pre m tl ms Hpre Hm Htl Hrest IH]; intros l2 H2.
  - inversion H2 as [|pre2 m2 tl2 ms2 Hpre2 Hm2 Htl2 Hrest2 E]; [reflexivity|].
    subst s. exfalso. apply (Hnone pre2 (m2 ++ tl2) eq_refl). now exists m2, tl2.
  - inversion H2 as [s' Hnone E|pre2 m2 tl2 ms2 Hpre2 Hm2 Htl2 Hrest2 E].
    + exfalso. apply (Hnone pre (m ++ tl) eq_refl). now exists m, tl.
    + assert (P : pre2 = pre /\ m2 ++ tl2 = m ++ tl).
      { apply app_split in E as [(q & -> & E) | (q & -> & E)].
        - destruct q as [|c q]; [now rewrite app_empty_r|].
          exfalso. apply (Hpre pre2 (String c q) eq_refl); [discriminate|].
          rewrite <- E. now exists m2, tl2.
        - destruct q as [|c q]; [now rewrite app_empty_r|].
          exfalso. apply (Hpre2 pre (String c q) eq_refl); [discriminate|].
          rewrite <- E. now exists m, tl. }
      destruct P as [_ P].
      destruct (token_maximal_unique _ _ _ _ Hm2 Htl2 Hm Htl P) as [-> ->].
      f_equal. now apply IH.
Qed.

(** A text in which no token occurs has no match, and conversely. *)
Lemma scans_nil_iff (s : string) (ms : list string) :
  scans s ms ->
  (ms = [] <-> forall p q, s = p ++ q -> ~ starts_with_token q).
Proof.
  intros H. destruct H as [s Hnone | pre m tl ms Hpre Hm Htl Hrest].
  - split; auto.
  - split; [discriminate|]. intros H. exfalso.
    apply (H pre (m ++ tl) eq_refl). now exists m, tl.
Qed.

End Scanning.

Section Sets.

Lemma Set_has_In (s : list string) (x : string) :
  Set_has s x = true <-> In x s.
Proof.
  unfold Set_has. rewrite existsb_exists. split.
  - intros (y & Hy & E). apply String.eqb_eq in E. now subst.
  - intros H. exists x. split; [assumption | apply String.eqb_refl].
Qed.

Lemma Set_has_app (a b : list string) (x : string) :
  Set_has (a ++ b) x = Set_has a x || Set_has b x.
Proof. unfold Set_has. apply existsb_app. Qed.

Lemma filter_filter {A} (p q : A -> bool) (l : list A) :
  filter p (filter q l) = filter (fun x => q x && p x) l.
Proof.
  induction l as [|x l IH]; simpl; [reflexivity|].
  destruct (q x); simpl; [destruct (p x)|]; now rewrite IH.
Qed.

(** Adding the strings of [l] one by one to the set [acc] appends, in order,
    the first occurrences of those not yet in [acc]. *)
Lemma fold_Set_add (l : list string) :
  forall acc,
    fold_left Set_add l acc =
    (acc ++ filter (fun y => negb (Set_has acc y)) (dedup l))%list.
Proof.
  induction l as [|x l IH]; intros acc; simpl.
  - now rewrite app_nil_r.
  - rewrite IH. unfold Set_add. destruct (Set_has acc x) eqn:Hx; simpl.
    + f_equal. rewrite filter_filter. apply filter_ext. intros y.
      destruct (String.eqb_spec x y) as [->|]; simpl; [now rewrite Hx | reflexivity].
    + rewrite <- app_assoc. simpl. do 2 f_equal.
      rewrite filter_filter. apply filter_ext. intros y.
      rewrite Set_has_app. unfold Set_has at 2. simpl.
      rewrite orb_false_r, negb_orb, (String.eqb_sym y x). apply andb_comm.
Qed.

Lemma new_Set_dedup (l : list string) : new_Set l = dedup l.
Proof.
  unfold new_Set. rewrite fold_Set_add. simpl.
  induction (dedup l) as [|y d IH]; simpl; [reflexivity | now rewrite IH].
Qed.

Lemma dedup_In (l : list string) (x : string) : In x (dedup l) <-> In x l.
Proof.
  induction l as [|y l IH]; simpl; [tauto|].
  rewrite filter_In, IH, negb_true_iff, String.eqb_neq.
  destruct (string_dec y x); intuition congruence.
Qed.

Lemma dedup_NoDup (l : list string) : NoDup (dedup l).
Proof.
  induction l as [|y l IH]; simpl; constructor.
  - rewrite filter_In, String.eqb_refl. intros [_ H]. discriminate.
  - now apply NoDup_filter.
Qed.

(** [xs.filter(p)], then the first element if there is one, is the first
    element of [xs] that satisfies [p]. *)
Lemma filter_first {A} (p : A -> bool) (l : list A) :
  (if (List.length (filter p l) =? 0)%nat then None else nth_error (filter p l) 0)
  = find p l.
Proof.
  induction l as [|x l IH]; simpl; [reflexivity|].
  destruct (p x); simpl; [reflexivity | exact IH].
Qed.

Lemma find_ext {A} (p q : A -> bool) (l : list A) :
  (forall x, p x = q x) -> find p l = find q l.
Proof.
  intros E. induction l as [|x l IH]; simpl; [reflexivity|].
  now rewrite E, IH.
Qed.

Lemma find_None_iff {A} (p : A -> bool) (l : list A) :
  find p l = None <-> forall x, In x l -> p x = false.
Proof.
  split; [apply find_none|].
  induction l as [|x l IH]; simpl; intros H; [reflexivity|].
  rewrite (H x (or_introl eq_refl)). apply IH. intros y Hy. apply H. now right.
Qed.

End Sets.

(* ===================================================================== *)
(** * The hex heuristic                                                   *)
(* ===================================================================== *)

Section Heuristic.

Lemma even_mod2 (n : nat) : (n mod 2 =? 0)%nat = Nat.even n.
Proof.
  destruct (Nat.even n) eqn:E.
  - apply Nat.even_spec in E as [k ->]. apply Nat.eqb_eq.
    rewrite Nat.mul_comm. apply Nat.Div0.mod_mul.
  - apply Nat.eqb_neq. intros H.
    apply Nat.Div0.mod_divides in H as [k ->].
    rewrite Nat.even_mul in E. discriminate.
Qed.

Lemma hexes_all_matches (text : string) :
  match match_hex text with Some ms => ms | None => [] end = all_matches text.
Proof. unfold match_hex. now destruct (all_matches text). Qed.

(** The two filters of [guessHexesFromText], read as searches. *)
Lemma guess_find (text : string) :
  g_sender32 (guessHexesFromText text) = find is_sender32 (dedup (all_matches text)) /\
  g_payload (guessHexesFromText text) = find is_payload (dedup (all_matches text)).
Proof.
  unfold guessHexesFromText. cbn [g_sender32 g_payload].
  rewrite hexes_all_matches, new_Set_dedup, !filter_first.
  split; [reflexivity|].
  apply find_ext. intros h. unfold is_payload. now rewrite even_mod2.
Qed.

Lemma guess_sender_shape (text s : string) :
  g_sender32 (guessHexesFromText text) = Some s ->
  hex_token s /\ String.length s = 66.
Proof.
  destruct (guess_find text) as [-> _]. intros H.
  apply find_some in H as [Hin Hs].
  apply (proj1 (dedup_In _ _)) in Hin. split.
  - pose proof (scans_tokens _ _ (all_matches_scans text)) as F.
    rewrite Forall_forall in F. now apply F.
  - now apply Nat.eqb_eq in Hs.
Qed.

Lemma guess_payload_shape (text p : string) :
  g_payload (guessHexesFromText text) = Some p ->
  hex_token p /\ 66 < String.length p /\ Nat.even (String.length p) = true.
Proof.
  destruct (guess_find text) as [_ ->]. intros H.
  apply find_some in H as [Hin Hp].
  apply (proj1 (dedup_In _ _)) in Hin. unfold is_payload in Hp.
  apply andb_prop in Hp as [Hl He]. apply Nat.ltb_lt in Hl.
  repeat split; auto.
  pose proof (scans_tokens _ _ (all_matches_scans text)) as F.
  rewrite Forall_forall in F. now apply F.
Qed.

(** C2: [guessHexesFromText] scans the text for the runs [0x] + 64 or more
    hexadecimal characters (the matches are the one scan of the text),
    removes repeated matches keeping first-seen order, and returns as
    [sender32] the first remaining candidate of length 66 and as [payload]
    the first one of even length above 66; a field is [null] exactly when no
    candidate satisfies its rule. *)
Theorem guessHexesFromText_spec (text : string) :
  let hexes := all_matches text in
  let uniq := dedup hexes in
  scans text hexes /\
  (forall ms, scans text ms -> ms = hexes) /\
  Forall hex_token hexes /\
  NoDup uniq /\
  (forall h, In h uniq <-> In h hexes) /\
  g_sender32 (guessHexesFromText text) = find is_sender32 uniq /\
  g_payload (guessHexesFromText text) = find is_payload uniq /\
  (g_sender32 (guessHexesFromText text) = None <->
   forall h, In h hexes -> String.length h <> 66) /\
  (g_payload (guessHexesFromText text) = None <->
   forall h, In h hexes ->
     ~ (66 < String.length h /\ Nat.even (String.length h) = true)).
Proof.
  intros hexes uniq. subst hexes uniq.
  pose proof (all_matches_scans text) as Hs.
  destruct (guess_find text) as [Es Ep].
  repeat split; auto.
  - intros ms H. now apply (scans_unique text).
  - now apply scans_tokens with text.
  - apply dedup_NoDup.
  - now apply dedup_In.
  - now apply dedup_In.
  - rewrite Es, find_None_iff. intros H h Hin.
    apply (proj2 (dedup_In _ _)), H in Hin. now apply Nat.eqb_neq in Hin.
  - rewrite Es, find_None_iff. intros H h Hin.
    apply (proj1 (dedup_In _ _)) in Hin. apply Nat.eqb_neq. now apply H.
  - rewrite Ep, find_None_iff. intros H h Hin [Hl He].
    apply (proj2 (dedup_In _ _)), H in Hin. unfold is_payload in Hin.
    apply Nat.ltb_lt in Hl. rewrite Hl, He in Hin. discriminate.
  - rewrite Ep, find_None_iff. intros H h Hin.
    apply (proj1 (dedup_In _ _)), H in Hin. unfold is_payload.
    destruct (66 <? String.length h)%nat eqn:Hl; [|reflexivity].
    destruct (Nat.even (String.length h)) eqn:He; [|reflexivity].
    apply Nat.ltb_lt in Hl. tauto.
Qed.

(** C3: when [guessHexesFromText] returns both a [sender32] and a [payload],
    they are different strings: the first has length 66, the second is
    longer. *)
Theorem guessHexesFromText_distinct (text s p : string) :
  g_sender32 (guessHexesFromText text) = Some s ->
  g_payload (guessHexesFromText text) = Some p ->
  String.length s = 66 /\ 66 < String.length p /\ s <> p.
Proof.
  intros Hs Hp.
  apply guess_sender_shape in Hs as [_ Ls].
  apply guess_payload_shape in Hp as (_ & Lp & _).
  repeat split; auto.
  intros ->. lia.
Qed.

End Heuristic.

Lemma guessHexesFromText_distinct_page :
  g_sender32 (guessHexesFromText Sample.page) = Some Sample.word32 /\
  g_payload (guessHexesFromText Sample.page) = Some Sample.word64 /\
  Sample.word32 <> Sample.word64.
Proof.
  assert (Hs : g_sender32 (guessHexesFromText Sample.page) = Some Sample.word32)
    by (vm_compute; reflexivity).
  assert (Hp : g_payload (guessHexesFromText Sample.page) = Some Sample.word64)
    by (vm_compute; reflexivity).
  repeat split; auto.
  apply (guessHexesFromText_distinct Sample.page _ _ Hs Hp).
Defined.

(* ===================================================================== *)
(** * The fetchers and the handler                                        *)
(* ===================================================================== *)

Section Chains.

Lemma or_val_chain2 (a b c : value) : a ||| b ||| c = first_truthy [a; b] c.
Proof.
  unfold or_val. simpl. destruct (truthy a) eqn:Ha; [now rewrite Ha | reflexivity].
Qed.

Lemma or_val_chain3 (a b c d : value) :
  a ||| b ||| c ||| d = first_truthy [a; b; c] d.
Proof.
  unfold or_val. simpl.
  destruct (truthy a) eqn:Ha; [now rewrite !Ha|].
  destruct (truthy b) eqn:Hb; [now rewrite !Hb | reflexivity].
Qed.

Lemma or_else_Normal (a b : value) : Normal a ||? Normal b = Normal (a ||| b).
Proof. unfold or_else, or_val. simpl. now destruct (truthy a). Qed.

Lemma get_Normal (m : value) (k : string) :
  nullish m = false -> get m k = Normal (opt_get m k).
Proof. unfold get. now intros ->. Qed.

Lemma opt_get_nullish (m : value) (k : string) :
  nullish m = true -> opt_get m k = VUndefined.
Proof. now destruct m. Qed.

Lemma status_not_nullish (m : value) :
  truthy (resolved_status m) = true -> nullish m = false.
Proof. destruct m; simpl; auto; discriminate. Qed.

Lemma fill_eq (field : value) (guessed : option string) :
  (if negb (truthy field) && truthy (of_nullable guessed)
   then of_nullable guessed else field) = fill field guessed.
Proof.
  unfold fill. destruct (truthy field); simpl; [reflexivity|].
  destruct guessed as [[|c g]|]; reflexivity.
Qed.

End Chains.

Section Fetchers.

Variables LZ_API_BASE LZ_TX_BASE : string.
Variable net : network.

(** [fetchTxHtml] sends one request, or none when the hash cannot be
    printed, and never throws. *)
Lemma fetchTxHtml_run (h : value) (t : trace) :
  fetchTxHtml LZ_TX_BASE net h t =
  match js_to_string h with
  | Normal hs =>
      (Normal (detail_document (net t (detail_request LZ_TX_BASE hs))),
       (t ++ [EvFetch (detail_request LZ_TX_BASE hs)])%list)
  | Throw _ => (Normal None, t)
  end.
Proof.
  unfold fetchTxHtml, try_catch, bind, lift, fetch, ret, detail_document, detail_request.
  destruct (js_to_string h) as [hs|e]; [|reflexivity].
  destruct (net t _) as [r|e]; [|reflexivity].
  destruct (ok r); simpl; [|reflexivity].
  now destruct (text r).
Qed.

(** [fetchMessagesByOwner] sends one request; a failure of any kind becomes
    a warning and the empty array. *)
Lemma fetchMessagesByOwner_run (owner : string) (page limit : Z) (t : trace) :
  let req := listing_request LZ_API_BASE owner page limit in
  fetchMessagesByOwner LZ_API_BASE net owner page limit t =
  match listing_outcome (net t req) with
  | Normal v => (Normal v, (t ++ [EvFetch req])%list)
  | Throw e =>
      (Normal (VArr []),
       (t ++ [EvFetch req; EvWarn ["LZ API error:"; message e]])%list)
  end.
Proof.
  unfold fetchMessagesByOwner, try_catch, bind, lift, fetch, ret, throw,
    console_warn, listing_outcome, listing_request.
  cbn zeta.
  destruct (net t _) as [r|e]; simpl.
  - destruct (ok r); simpl.
    + destruct (json r) as [j|e]; simpl.
      * destruct (get j "messages" ||? Normal (VArr [])); simpl;
          [reflexivity | now rewrite <- app_assoc].
      * now rewrite <- app_assoc.
    + now rewrite <- app_assoc.
  - now rewrite <- app_assoc.
Qed.

End Fetchers.

Section Entry.

Context {R : Runtime}.

Variable LZ_TX_BASE : string.
Variable net : network.

Local Notation turn := (pending_entry LZ_TX_BASE net).
Local Notation detail := (fetchTxHtml LZ_TX_BASE net).
Local Notation entry := (entry_of LZ_TX_BASE).

Lemma qualifies_text (m : value) :
  qualifies m = true ->
  exists s, resolved_status m = VStr s /\ toUpperCase s = "WAITING" /\
            truthy (resolved_hash m) = true.
Proof.
  unfold qualifies, waiting. intros H. apply andb_prop in H as [Hw Hh].
  destruct (resolved_status m); try discriminate.
  exists s. apply andb_prop in Hw as [_ Hw]. apply String.eqb_eq in Hw. auto.
Qed.

(** One turn of the loop, with the probing chains resolved: a status that
    is not a string throws, a record that does not qualify is skipped, and a
    qualifying record is completed from the detail page if need be. *)
Lemma pending_entry_run (m : value) (t : trace) :
  turn m t =
  if negb (status_is_text m)
  then (Throw (TypeError "execStatus.toUpperCase is not a function"), t)
  else if negb (qualifies m) then (Normal None, t)
  else
    (sp <- (if structured m
            then ret (structured_sender m, structured_payload m)
            else
              html <- detail (resolved_hash m);;
              ret (enrich (structured_sender m) (structured_payload m) html));;
     page <- lift (js_to_string (resolved_hash m));;
     ret (Some (entry m page sp))) t.
Proof.
  unfold pending_entry. cbv zeta. rewrite or_val_chain2.
  change (first_truthy _ VNull) with (resolved_status m).
  unfold status_is_text, qualifies, waiting.
  destruct (truthy (resolved_status m)) eqn:Ht.
  2:{ destruct (resolved_status m) as [| | | |[|c s]| |]; simpl in *;
        try rewrite Ht; try discriminate; reflexivity. }
  pose proof (status_not_nullish m Ht) as Hm.
  destruct (resolved_status m) as [| | | |s| |] eqn:Hs; simpl in Ht; try discriminate;
    try (simpl; rewrite ?Ht; reflexivity).
  cbn [negb call_toUpperCase bind lift truthy andb]. rewrite ?Ht. cbn [andb].
  destruct (String.eqb (toUpperCase s) "WAITING"); [|reflexivity].
  rewrite !(get_Normal m _ Hm), !or_else_Normal, !or_val_chain3, !or_val_chain2.
  change (first_truthy [opt_get m "srcTxHash"; opt_get m "txHash"] _)
    with (resolved_hash m).
  change (first_truthy [opt_get m "sender32"; opt_get m "sender"] VNull)
    with (structured_sender m).
  change (first_truthy [opt_get m "payload"; opt_get m "payloadHex"; opt_get m "data"] VNull)
    with (structured_payload m).
  change (first_truthy [opt_get m "dstEid"; opt_get m "dst_eid"; opt_get m "dst"] VNull)
    with (resolved_dst m).
  cbn [andb negb bind lift].
  destruct (truthy (resolved_hash m)); [|reflexivity].
  unfold structured, bind, lift, ret. cbn beta iota.
  rewrite <- negb_andb.
  destruct (truthy (structured_sender m) && truthy (structured_payload m));
    cbn [negb].
  - destruct (js_to_string (resolved_hash m)); unfold entry_of; now rewrite ?Hs.
  - destruct (detail (resolved_hash m) t) as [[html|e] t'] eqn:Ef; [|reflexivity].
    rewrite !fill_eq.
    destruct html as [[|c h]|]; cbn [of_nullable truthy enrich];
      destruct (js_to_string (resolved_hash m)); unfold entry_of; now rewrite ?Hs.
Qed.

Lemma qualifies_status_is_text (m : value) :
  qualifies m = true -> status_is_text m = true.
Proof.
  intros H. destruct (qualifies_text m H) as (s & Hs & _).
  unfold status_is_text. now rewrite Hs.
Qed.

(** A record whose status is neither falsy nor a string: the turn throws. *)
Lemma turn_bad_status (m : value) (t : trace) :
  status_is_text m = false ->
  turn m t = (Throw (TypeError "execStatus.toUpperCase is not a function"), t).
Proof. intros H. now rewrite pending_entry_run, H. Qed.

(** A record that does not qualify: the turn ends in [continue]. *)
Lemma turn_skip (m : value) (t : trace) :
  status_is_text m = true -> qualifies m = false ->
  turn m t = (Normal None, t).
Proof. intros H Q. now rewrite pending_entry_run, H, Q. Qed.

(** A qualifying record whose hash prints as [h]: the turn pushes an entry,
    after one request for the detail page unless sender and payload both
    came with the record. *)
Lemma turn_emit (m : value) (t : trace) (h : string) :
  qualifies m = true ->
  js_to_string (resolved_hash m) = Normal h ->
  turn m t =
  if structured m
  then (Normal (Some (entry m h (structured_sender m, structured_payload m))), t)
  else (Normal (Some (entry m h
                  (enrich (structured_sender m) (structured_payload m)
                     (detail_document (net t (detail_request LZ_TX_BASE h)))))),
        (t ++ [EvFetch (detail_request LZ_TX_BASE h)])%list).
Proof.
  intros Q P. rewrite pending_entry_run, (qualifies_status_is_text m Q), Q.
  cbn [negb]. unfold bind, lift, ret.
  destruct (structured m).
  - now rewrite P.
  - now rewrite fetchTxHtml_run, P.
Qed.

(** A qualifying record whose hash cannot be printed: the turn throws and
    sends nothing. *)
Lemma turn_unprintable (m : value) (t : trace) (e : error) :
  qualifies m = true ->
  js_to_string (resolved_hash m) = Throw e ->
  turn m t = (Throw e, t).
Proof.
  intros Q P. rewrite pending_entry_run, (qualifies_status_is_text m Q), Q.
  cbn [negb]. unfold bind, lift, ret.
  destruct (structured m).
  - now rewrite P.
  - now rewrite fetchTxHtml_run, P.
Qed.

(** What is known of a record when its turn pushed the entry [s]. *)
Lemma turn_emitted (m : value) (t t' : trace) (s : summary) :
  turn m t = (Normal (Some s), t') ->
  qualifies m = true /\
  exists h, js_to_string (resolved_hash m) = Normal h /\
    ((structured m = true /\ t' = t /\
      s = entry m h (structured_sender m, structured_payload m)) \/
     (structured m = false /\
      t' = (t ++ [EvFetch (detail_request LZ_TX_BASE h)])%list /\
      s = entry m h (enrich (structured_sender m) (structured_payload m)
                       (detail_document (net t (detail_request LZ_TX_BASE h)))))).
Proof.
  intros H.
  destruct (status_is_text m) eqn:T.
  2:{ rewrite (turn_bad_status m t T) in H. discriminate. }
  destruct (qualifies m) eqn:Q.
  2:{ rewrite (turn_skip m t T Q) in H. discriminate. }
  split; [reflexivity|].
  destruct (js_to_string (resolved_hash m)) as [h|e] eqn:P.
  2:{ rewrite (turn_unprintable m t e Q P) in H. discriminate. }
  exists h. split; [reflexivity|].
  rewrite (turn_emit m t h Q P) in H.
  destruct (structured m); inversion H; subst; [left | right]; auto.
Qed.

(** A well-formed record never makes the turn throw, and conversely. *)
Lemma turn_well_formed (m : value) (t : trace) :
  well_formed m = true <-> exists o t', turn m t = (Normal o, t').
Proof.
  unfold well_formed, printable. split.
  - intros H. apply andb_prop in H as [T H].
    destruct (qualifies m) eqn:Q.
    + simpl in H. destruct (js_to_string (resolved_hash m)) as [h|e] eqn:P;
        [|discriminate].
      rewrite (turn_emit m t h Q P). destruct (structured m); eauto.
    + rewrite (turn_skip m t T Q). eauto.
  - intros (o & t' & H).
    destruct (status_is_text m) eqn:T.
    2:{ rewrite (turn_bad_status m t T) in H. discriminate. }
    destruct (qualifies m) eqn:Q; [|reflexivity].
    destruct (js_to_string (resolved_hash m)) as [h|e] eqn:P; [reflexivity|].
    rewrite (turn_unprintable m t e Q P) in H. discriminate.
Qed.

End Entry.

Section Loop.

Context {R : Runtime}.

Variables OWNER LZ_API_BASE LZ_TX_BASE : string.
Variable net : network.

Local Notation turn := (pending_entry LZ_TX_BASE net).
Local Notation loop := (pending_loop LZ_TX_BASE net).
Local Notation results := (pending_results OWNER LZ_API_BASE LZ_TX_BASE net).
Local Notation handler := (pending OWNER LZ_API_BASE LZ_TX_BASE net).
Local Notation listing := (listing_request LZ_API_BASE OWNER 1 50).

Lemma turn_emitted_entry_for (m : value) (t t' : trace) (s : summary) :
  turn m t = (Normal (Some s), t') ->
  qualifies m = true /\ entry_for LZ_TX_BASE m s.
Proof.
  intros H. apply turn_emitted in H as (Q & h & P & [(_ & _ & ->) | (_ & _ & ->)]);
    (split; [assumption | eexists _, _; split; [exact P | reflexivity]]).
Qed.

Lemma turn_none_not_qualifying (m : value) (t t' : trace) :
  turn m t = (Normal None, t') -> qualifies m = false.
Proof.
  intros H. destruct (qualifies m) eqn:Q; [|reflexivity].
  destruct (js_to_string (resolved_hash m)) as [h|e] eqn:P.
  - rewrite (turn_emit _ _ m t h Q P) in H. destruct (structured m); discriminate.
  - rewrite (turn_unprintable _ _ m t e Q P) in H. discriminate.
Qed.

(** The loop either runs to its end, pushing the entries of the qualifying
    records in their order, or stops at a record that is not well formed. *)
Lemma pending_loop_run (msgs : list value) :
  forall out t,
    (exists res t',
        loop msgs out t = (Normal (out ++ res)%list, t') /\
        Forall2 (entry_for LZ_TX_BASE) (filter qualifies msgs) res /\
        Forall (fun m => well_formed m = true) msgs) \/
    (exists e t',
        loop msgs out t = (Throw e, t') /\
        Exists (fun m => well_formed m = false) msgs).
Proof.
  induction msgs as [|m rest IH]; intros out t.
  - left. exists [], t. rewrite app_nil_r. repeat split; constructor.
  - cbn [pending_loop]. unfold bind.
    destruct (turn m t) as [[o|e] t1] eqn:E.
    + assert (W : well_formed m = true)
        by (apply (turn_well_formed LZ_TX_BASE net m t); eauto).
      destruct o as [s|].
      * destruct (turn_emitted_entry_for m t t1 s E) as [Q F].
        destruct (IH (out ++ [s])%list t1)
          as [(res & t' & -> & F2 & W2) | (e & t' & -> & X)].
        -- left. exists (s :: res), t'. rewrite <- app_assoc. simpl. rewrite Q.
           repeat split; constructor; auto.
        -- right. exists e, t'. split; [reflexivity | now apply Exists_cons_tl].
      * pose proof (turn_none_not_qualifying m t t1 E) as Q.
        destruct (IH out t1) as [(res & t' & -> & F2 & W2) | (e & t' & -> & X)].
        -- left. exists res, t'. simpl. rewrite Q. repeat split; auto.
        -- right. exists e, t'. split; [reflexivity | now apply Exists_cons_tl].
    + right. exists e, t1. split; [reflexivity|].
      apply Exists_cons_hd. destruct (well_formed m) eqn:W; [|reflexivity].
      apply (turn_well_formed LZ_TX_BASE net m t) in W as (o & t' & W).
      rewrite W in E. discriminate.
Qed.

(** The body of the handler's [try], step by step. *)
Lemma pending_results_run (t : trace) :
  results t =
  match listing_outcome (net t listing) with
  | Normal fetched =>
      match iterate fetched with
      | Normal msgs => loop msgs [] (t ++ [EvFetch listing])%list
      | Throw e => (Throw e, (t ++ [EvFetch listing])%list)
      end
  | Throw e =>
      (Normal [], (t ++ [EvFetch listing; EvWarn ["LZ API error:"; message e]])%list)
  end.
Proof.
  unfold pending_results, bind. cbv zeta. rewrite fetchMessagesByOwner_run.
  destruct (listing_outcome _) as [fetched|e]; [|reflexivity].
  unfold lift. now destruct (iterate fetched).
Qed.

Lemma pending_run (t : trace) :
  handler t =
  match results t with
  | (Normal out, t') =>
      (Normal {| http_status := 200;
                 http_body := JsonOk OWNER (List.length out) out |}, t')
  | (Throw e, t') =>
      (Normal {| http_status := 500; http_body := JsonErr (message e) |},
       (t' ++ [EvError "Error /pending:" e])%list)
  end.
Proof.
  unfold pending, try_catch, bind, ret, console_error.
  now destruct (results t) as [[out|e] t'].
Qed.

End Loop.

(* ===================================================================== *)
(** * The pending-message normalizer                                      *)
(* ===================================================================== *)

Section Normalizer.

Context {R : Runtime}.

Variable LZ_TX_BASE : string.
Variable net : network.

Local Notation turn := (pending_entry LZ_TX_BASE net).
Local Notation detail := (fetchTxHtml LZ_TX_BASE net).

Lemma first_truthy_falsy (l : list value) :
  truthy (first_truthy l VNull) = false -> first_truthy l VNull = VNull.
Proof.
  induction l as [|v l IH]; simpl; [reflexivity|].
  destruct (truthy v) eqn:Hv; [congruence | exact IH].
Qed.

Lemma fill_resolved (field : value) (guessed : option string) :
  truthy field = true -> fill field guessed = field.
Proof. unfold fill. now intros ->. Qed.

Lemma enrich_resolved (sender0 payload0 : value) (html : option string) :
  (truthy sender0 = true -> fst (enrich sender0 payload0 html) = sender0) /\
  (truthy payload0 = true -> snd (enrich sender0 payload0 html) = payload0).
Proof.
  destruct html as [[|c d]|]; simpl; auto using fill_resolved.
Qed.

Lemma enrich_sender_shape (sender0 payload0 : value) (html : option string) :
  fst (enrich sender0 payload0 html) = sender0 \/
  exists h, fst (enrich sender0 payload0 html) = VStr h /\
            hex_token h /\ String.length h = 66.
Proof.
  destruct html as [[|c d]|]; cbn [enrich fst snd]; auto.
  unfold fill. destruct (truthy sender0); auto.
  destruct (g_sender32 (guessHexesFromText (String c d))) as [[|c' g]|] eqn:G;
    [now left | | now left].
  right. exists (String c' g). split; [reflexivity|].
  now apply guess_sender_shape with (String c d).
Qed.

Lemma enrich_payload_shape (sender0 payload0 : value) (html : option string) :
  snd (enrich sender0 payload0 html) = payload0 \/
  exists p, snd (enrich sender0 payload0 html) = VStr p /\
            hex_token p /\ 66 < String.length p /\ Nat.even (String.length p) = true.
Proof.
  destruct html as [[|c d]|]; cbn [enrich fst snd]; auto.
  unfold fill. destruct (truthy payload0); auto.
  destruct (g_payload (guessHexesFromText (String c d))) as [[|c' g]|] eqn:G;
    [now left | | now left].
  right. exists (String c' g). split; [reflexivity|].
  now apply guess_payload_shape with (String c d).
Qed.

(** C1, amended: for a record whose status is a string whenever it has one
    (and whose hash can be printed when it qualifies), an entry is pushed if
    and only if the resolved status ([executorResult.status] before
    [executorStatus]) is upper-cased to [WAITING] and a hash resolves from
    [srcTxHash], [txHash], [tx.txHash], in that order; any other such record
    is skipped with no error and no effect. *)
Theorem pending_entry_emits_iff_qualifies (m : value) (t : trace) :
  well_formed m = true ->
  if qualifies m
  then exists s t', turn m t = (Normal (Some s), t') /\
                    srcTxHash s = resolved_hash m /\
                    entry_for LZ_TX_BASE m s
  else turn m t = (Normal None, t).
Proof.
  intros W. unfold well_formed, printable in W. apply andb_prop in W as [T W].
  destruct (qualifies m) eqn:Q.
  - simpl in W. destruct (js_to_string (resolved_hash m)) as [h|e] eqn:P;
      [|discriminate].
    rewrite (turn_emit _ _ m t h Q P).
    destruct (structured m); eexists _, _; (split; [reflexivity|]);
      (split; [reflexivity | eexists _, _; split; [exact P | reflexivity]]).
  - now apply turn_skip.
Qed.

(** C4, amended: the [statusSummary] of an entry is the resolved status of
    its record exactly as received, a string whose upper-case form is
    [WAITING]; it is not stored upper-cased. *)
Theorem statusSummary_as_received (m : value) (t t' : trace) (s : summary) :
  turn m t = (Normal (Some s), t') ->
  statusSummary s = resolved_status m /\
  exists st, statusSummary s = VStr st /\ toUpperCase st = "WAITING".
Proof.
  intros H. apply turn_emitted in H as (Q & h & P & H).
  destruct (qualifies_text m Q) as (st & Hs & Hu & _).
  assert (E : statusSummary s = resolved_status m)
    by (destruct H as [(_ & _ & ->) | (_ & _ & ->)]; reflexivity).
  split; [exact E|]. exists st. now rewrite E.
Qed.

(** C5, amended: the [sender32] of an entry is the first truthy of the
    record's [sender32] and [sender] fields, taken as it is, whatever its
    shape; only when there is none is it [null] or a 32-byte [0x] hex string
    found by the heuristic.  Likewise [payload] is the first truthy of
    [payload], [payloadHex] and [data] as it is, and otherwise [null] or an
    even-length [0x] hex string longer than 66 characters. *)
Theorem sender_payload_provenance (m : value) (t t' : trace) (s : summary) :
  turn m t = (Normal (Some s), t') ->
  (if truthy (structured_sender m)
   then sender32 s = structured_sender m
   else sender32 s = VNull \/
        exists h, sender32 s = VStr h /\ hex_token h /\ String.length h = 66) /\
  (if truthy (structured_payload m)
   then payload s = structured_payload m
   else payload s = VNull \/
        exists p, payload s = VStr p /\ hex_token p /\
                  66 < String.length p /\ Nat.even (String.length p) = true).
Proof.
  intros H. apply turn_emitted in H as (Q & h & P & H).
  unfold structured in H.
  destruct H as [(S & _ & ->) | (S & _ & ->)]; cbn [sender32 payload entry_of fst snd].
  - apply andb_prop in S as [-> ->]. auto.
  - set (html := detail_document _).
    destruct (enrich_resolved (structured_sender m) (structured_payload m) html)
      as [Rs Rp].
    split.
    + destruct (truthy (structured_sender m)) eqn:Ts; [now apply Rs|].
      destruct (enrich_sender_shape (structured_sender m) (structured_payload m) html)
        as [-> | ?]; [left | now right].
      now apply first_truthy_falsy.
    + destruct (truthy (structured_payload m)) eqn:Tp; [now apply Rp|].
      destruct (enrich_payload_shape (structured_sender m) (structured_payload m) html)
        as [-> | ?]; [left | now right].
      now apply first_truthy_falsy.
Qed.

(** C6: for a qualifying record the detail page is fetched if and only if
    the sender or the payload is still unresolved after the structured
    fields were probed: with both present the turn sends nothing, otherwise
    its only effect is the one call of [fetchTxHtml], a single request for
    the page of the hash; and what the heuristic finds fills only a field
    that is unresolved, a resolved one is kept. *)
Theorem detail_fetch_iff_unresolved (m : value) (t : trace) :
  qualifies m = true ->
  snd (turn m t) =
    (if structured m then t else snd (detail (resolved_hash m) t)) /\
  forall h, js_to_string (resolved_hash m) = Normal h ->
    let req := detail_request LZ_TX_BASE h in
    exists s,
      turn m t = (Normal (Some s),
                  if structured m then t else (t ++ [EvFetch req])%list) /\
      (sender32 s, payload s) =
        (if structured m
         then (structured_sender m, structured_payload m)
         else enrich (structured_sender m) (structured_payload m)
                (detail_document (net t req))) /\
      (truthy (structured_sender m) = true -> sender32 s = structured_sender m) /\
      (truthy (structured_payload m) = true -> payload s = structured_payload m).
Proof.
  intros Q. split.
  - destruct (js_to_string (resolved_hash m)) as [h|e] eqn:P.
    + rewrite (turn_emit _ _ m t h Q P), fetchTxHtml_run, P.
      now destruct (structured m).
    + rewrite (turn_unprintable _ _ m t e Q P), fetchTxHtml_run, P.
      now destruct (structured m).
  - intros h P req. subst req. rewrite (turn_emit _ _ m t h Q P).
    unfold structured. 
    destruct (truthy (structured_sender m)) eqn:Ts;
      destruct (truthy (structured_payload m)) eqn:Tp; cbn [andb];
      eexists; (split; [reflexivity|]); cbn [sender32 payload entry_of fst snd];
      (split; [first [reflexivity | symmetry; apply surjective_pairing]|]);
      split; intros; try discriminate; try reflexivity;
      now apply enrich_resolved.
Qed.

End Normalizer.

(* ===================================================================== *)
(** * The message fetcher and [GET /pending]                              *)
(* ===================================================================== *)

Section Handler.

Context {R : Runtime}.

Variables OWNER LZ_API_BASE LZ_TX_BASE : string.
Variable net : network.

Local Notation turn := (pending_entry LZ_TX_BASE net).
Local Notation detail := (fetchTxHtml LZ_TX_BASE net).
Local Notation loop := (pending_loop LZ_TX_BASE net).
Local Notation results := (pending_results OWNER LZ_API_BASE LZ_TX_BASE net).
Local Notation handler := (pending OWNER LZ_API_BASE LZ_TX_BASE net).

(** C7, amended: [fetchMessagesByOwner] never throws.  When the request is
    rejected, when the response status is not a success, or when the body
    cannot be read, it returns the empty array; on a successful response it
    returns the [messages] value of the parsed body when that value is
    truthy, whatever it is (so the [messages] array when there is one), and
    the empty array when it is falsy or missing. *)
Theorem fetchMessagesByOwner_degrades (owner : string) (page limit : Z) (t : trace) :
  let answer := net t (listing_request LZ_API_BASE owner page limit) in
  exists fetched t',
    fetchMessagesByOwner LZ_API_BASE net owner page limit t = (Normal fetched, t') /\
    (forall e, answer = Throw e -> fetched = VArr []) /\
    (forall r, answer = Normal r -> ok r = false -> fetched = VArr []) /\
    (forall r e, answer = Normal r -> json r = Throw e -> fetched = VArr []) /\
    (forall r j, answer = Normal r -> ok r = true -> json r = Normal j ->
       fetched = (if truthy (opt_get j "messages")
                  then opt_get j "messages" else VArr []) /\
       (forall msgs, opt_get j "messages" = VArr msgs -> fetched = VArr msgs) /\
       (forall props, j = VObj props -> own "messages" props = None ->
                      fetched = VArr [])).
Proof.
  intros answer. subst answer. rewrite fetchMessagesByOwner_run. cbv zeta.
  unfold listing_outcome.
  destruct (net t _) as [r|e0]; cbn [obind].
  2:{ eexists _, _. split; [reflexivity|].
      repeat (split; [intros; congruence|]). intros; congruence. }
  destruct (ok r) eqn:K; cbn [negb].
  2:{ eexists _, _. split; [reflexivity|].
      split; [reflexivity|]. split; [reflexivity|]. split; [reflexivity|].
      intros r' j' E K'. inversion E; subst r'. congruence. }
  destruct (json r) as [j|e1] eqn:J; cbn [obind].
  2:{ eexists _, _. split; [reflexivity|].
      split; [reflexivity|]. split; [reflexivity|]. split; [reflexivity|].
      intros r' j' E _ J'. inversion E; subst r'. congruence. }
  assert (G : match get j "messages" ||? Normal (VArr []) with
              | Normal v => v
              | Throw _ => VArr []
              end = if truthy (opt_get j "messages")
                    then opt_get j "messages" else VArr []).
  { unfold or_else, get. destruct (nullish j) eqn:N; cbn [obind].
    - now rewrite (opt_get_nullish j _ N).
    - now destruct (truthy (opt_get j "messages")). }
  destruct (get j "messages" ||? Normal (VArr [])) as [v|e1];
    (eexists _, _; split; [reflexivity|]);
    (split; [intros; congruence|]);
    (split; [intros; congruence|]);
    (split; [intros; congruence|]);
    intros r' j' E _ J'; inversion E; subst r';
    assert (j' = j) by congruence; subst j';
    (split; [exact G|]); rewrite G;
    (split; [intros msgs M; now rewrite M
            | intros props -> O; unfold opt_get; now rewrite O]).
Qed.

(** C8: [GET /pending] always answers.  It answers 200 with
    [{ ok: true, owner, count, results }], [count] being the number of
    results, when the body of its [try] completes; in particular when the
    listing request is rejected or fails it answers 200 with no result and
    a count of 0, and so it does whenever the listing is an array of
    well-formed records.  It answers 500 with [{ ok: false, error }], the
    message of the exception, exactly when that body throws. *)
Theorem pending_response (t : trace) :
  let answer := net t (listing_request LZ_API_BASE OWNER 1 50) in
  exists resp t',
    handler t = (Normal resp, t') /\
    (forall out t1, results t = (Normal out, t1) ->
       resp = {| http_status := 200;
                 http_body := JsonOk OWNER (List.length out) out |}) /\
    (forall e t1, results t = (Throw e, t1) ->
       resp = {| http_status := 500; http_body := JsonErr (message e) |}) /\
    (http_status resp = 500%Z <-> exists e, fst (results t) = Throw e) /\
    (forall e, listing_outcome answer = Throw e ->
       resp = {| http_status := 200; http_body := JsonOk OWNER 0 [] |}) /\
    (forall e, answer = Throw e ->
       resp = {| http_status := 200; http_body := JsonOk OWNER 0 [] |}) /\
    (forall msgs, listing_outcome answer = Normal (VArr msgs) ->
       Forall (fun m => well_formed m = true) msgs ->
       http_status resp = 200%Z).
Proof.
  intros answer. rewrite pending_run.
  pose proof (pending_results_run OWNER LZ_API_BASE LZ_TX_BASE net t) as Hrun.
  fold answer in Hrun. clearbody answer.
  destruct (results t) as [[out|e] t1] eqn:E.
  - eexists _, _. split; [reflexivity|].
    split; [intros out' t1' H; now inversion H|].
    split; [discriminate|].
    split; [split; [discriminate | intros [e H]; discriminate]|].
    assert (L : forall e, listing_outcome answer = Throw e -> out = []).
    { intros e H. rewrite H in Hrun. now inversion Hrun. }
    split; [intros e H; now rewrite (L e H)|].
    split; [|reflexivity].
    intros e H. rewrite (L e); [reflexivity | now rewrite H].
  - eexists _, _. split; [reflexivity|].
    split; [discriminate|].
    split; [intros e' t1' H; now inversion H|].
    split; [split; [intros _; now exists e | reflexivity]|].
    assert (L : forall e', listing_outcome answer <> Throw e').
    { intros e' H. rewrite H in Hrun. discriminate. }
    split; [intros e' H; destruct (L e' H)|].
    split; [intros e' H; exfalso; apply (L e'); now rewrite H|].
    intros msgs H W. rewrite H in Hrun. cbn [iterate] in Hrun.
    destruct (pending_loop_run LZ_TX_BASE net msgs [] (t ++ [EvFetch (listing_request LZ_API_BASE OWNER 1 50)])%list)
      as [(res & t' & H1 & _) | (e' & t' & _ & X)].
    + rewrite H1 in Hrun. discriminate.
    + apply Exists_exists in X as (m & Hin & Hm).
      rewrite Forall_forall in W. rewrite (W m Hin) in Hm. discriminate.
Qed.


End Handler.

Section Probing.

Context {R : Runtime}.

Variable LZ_TX_BASE : string.
Variable net : network.

Local Notation turn := (pending_entry LZ_TX_BASE net).
Local Notation detail := (fetchTxHtml LZ_TX_BASE net).

Lemma first_truthy_all_falsy (l : list value) (dflt : value) :
  truthy (first_truthy l dflt) = false <->
  Forall (fun v => truthy v = false) l /\ truthy dflt = false.
Proof.
  induction l as [|v l IH]; simpl.
  - split; [auto | tauto].
  - destruct (truthy v) eqn:Hv.
    + split; [congruence|]. intros [F _]. inversion F; congruence.
    + rewrite IH. split; intros [F D]; split; auto. now inversion F.
Qed.

(** C10: every probing chain of the loop takes the first truthy value and
    treats a falsy one as absent.  The turn is determined by the first
    truthy of [executorResult.status], [executorStatus]; of [srcTxHash],
    [txHash], [tx.txHash]; of [sender32], [sender]; of [payload],
    [payloadHex], [data]; and [dstEid] is the first truthy of [dstEid],
    [dst_eid], [dst], else [null].  So a falsy [srcTxHash] falls through to
    [txHash], the record is skipped when all three hashes are falsy, a falsy
    nested status falls through to [executorStatus], and falsy sender or
    payload fields (the empty string, zero) leave the field unresolved,
    which triggers the request for the detail page. *)
Theorem probing_chains_first_truthy (m : value) (t : trace) :
  let status := first_truthy [opt_get (opt_get m "executorResult") "status";
                              opt_get m "executorStatus"] VNull in
  let hash := first_truthy [opt_get m "srcTxHash"; opt_get m "txHash"]
                           (opt_get (opt_get m "tx") "txHash") in
  let sender0 := first_truthy [opt_get m "sender32"; opt_get m "sender"] VNull in
  let payload0 := first_truthy [opt_get m "payload"; opt_get m "payloadHex";
                                opt_get m "data"] VNull in
  let dst := first_truthy [opt_get m "dstEid"; opt_get m "dst_eid";
                           opt_get m "dst"] VNull in
  turn m t =
    match status with
    | VStr st =>
        if truthy status && String.eqb (toUpperCase st) "WAITING" && truthy hash
        then
          (sp <- (if truthy sender0 && truthy payload0
                  then ret (sender0, payload0)
                  else html <- detail hash;; ret (enrich sender0 payload0 html));;
           page <- lift (js_to_string hash);;
           ret (Some {| srcTxHash := hash;
                        dstEid := dst;
                        sender32 := fst sp;
                        payload := snd sp;
                        statusSummary := status;
                        lzTxPage := LZ_TX_BASE ++ "/" ++ page |})) t
        else (Normal None, t)
    | _ =>
        if truthy status
        then (Throw (TypeError "execStatus.toUpperCase is not a function"), t)
        else (Normal None, t)
    end /\
  (truthy (opt_get (opt_get m "executorResult") "status") = false ->
   status = first_truthy [opt_get m "executorStatus"] VNull) /\
  (truthy (opt_get m "srcTxHash") = false ->
   hash = first_truthy [opt_get m "txHash"] (opt_get (opt_get m "tx") "txHash")) /\
  (truthy hash = false <->
   truthy (opt_get m "srcTxHash") = false /\
   truthy (opt_get m "txHash") = false /\
   truthy (opt_get (opt_get m "tx") "txHash") = false) /\
  (status_is_text m = true -> truthy hash = false -> turn m t = (Normal None, t)) /\
  (truthy sender0 = false <->
   truthy (opt_get m "sender32") = false /\ truthy (opt_get m "sender") = false) /\
  (truthy payload0 = false <->
   truthy (opt_get m "payload") = false /\
   truthy (opt_get m "payloadHex") = false /\
   truthy (opt_get m "data") = false) /\
  (forall h, qualifies m = true -> js_to_string hash = Normal h ->
     truthy sender0 = false \/ truthy payload0 = false ->
     snd (turn m t) = (t ++ [EvFetch (detail_request LZ_TX_BASE h)])%list) /\
  truthy (VStr EmptyString) = false /\
  (forall n, num_is_zero n = true -> truthy (VNum n) = false).
Proof.
  intros status hash sender0 payload0 dst.
  change status with (resolved_status m). change hash with (resolved_hash m).
  change sender0 with (structured_sender m).
  change payload0 with (structured_payload m).
  change dst with (resolved_dst m).
  clear status hash sender0 payload0 dst.
  split.
  { rewrite pending_entry_run. unfold status_is_text, qualifies, waiting.
    destruct (resolved_status m) as [| | | |st| |] eqn:Hs; cbn [negb truthy];
      try reflexivity.
    - destruct b; reflexivity.
    - destruct (num_is_zero n); reflexivity.
    - match goal with |- context [negb ?b] => destruct b end; cbn [negb];
        [|reflexivity].
      unfold structured, entry_of. now rewrite Hs. }
  split.
  { unfold resolved_status. simpl. now intros ->. }
  split.
  { unfold resolved_hash. simpl. now intros ->. }
  split.
  { unfold resolved_hash. rewrite first_truthy_all_falsy. split.
    - intros [F D]. inversion F as [|? ? H1 F']. inversion F'. auto.
    - intros (A & B & C). repeat constructor; auto. }
  split.
  { intros T H. apply turn_skip; [exact T|].
    unfold qualifies. rewrite H. apply andb_false_r. }
  split.
  { unfold structured_sender. rewrite first_truthy_all_falsy. split.
    - intros [F _]. inversion F as [|? ? H1 F']. inversion F'. auto.
    - intros (A & B). repeat constructor; auto. }
  split.
  { unfold structured_payload. rewrite first_truthy_all_falsy. split.
    - intros [F _]. inversion F as [|? ? H1 F']. inversion F' as [|? ? H2 F''].
      inversion F''. auto.
    - intros (A & B & C). repeat constructor; auto. }
  split.
  { intros h Q P U. rewrite (turn_emit _ _ m t h Q P).
    unfold structured. destruct U as [-> | ->]; [reflexivity|].
    now rewrite andb_false_r. }
  split; [reflexivity|].
  intros n H. simpl. now rewrite H.
Qed.

End Probing.

(* ===================================================================== *)
(** * Further properties of the heuristic                                 *)
(* ===================================================================== *)

Section HeuristicMore.

Lemma scans_substring (s : string) (ms : list string) :
  scans s ms -> forall m, In m ms -> exists p q, s = p ++ m ++ q.
Proof.
  induction 1 as [s Hnone | pre m0 tl ms Hpre Hm Htl Hrest IH]; intros m Hin.
  - destruct Hin.
  - destruct Hin as [<- | Hin].
    + now exists pre, tl.
    + destruct (IH m Hin) as (p & q & ->).
      exists (pre ++ m0 ++ p), q. now rewrite !app_assoc_s.
Qed.

Lemma find_filter_keep {A} (p q : A -> bool) (l : list A) :
  (forall x, p x = true -> q x = true) ->
  find p (filter q l) = find p l.
Proof.
  intros K. induction l as [|x l IH]; simpl; [reflexivity|].
  destruct (q x) eqn:Q; simpl.
  - now rewrite IH.
  - destruct (p x) eqn:P; [|exact IH]. rewrite (K x P) in Q. discriminate.
Qed.

Lemma find_dedup (p : string -> bool) (l : list string) :
  find p (dedup l) = find p l.
Proof.
  induction l as [|x l IH]; simpl; [reflexivity|].
  destruct (p x) eqn:P; [reflexivity|].
  rewrite find_filter_keep; [exact IH|].
  intros y Py. apply negb_true_iff, String.eqb_neq. intros ->. congruence.
Qed.

Lemma all_matches_token (s : string) : hex_token s -> all_matches s = [s].
Proof.
  intros (h & -> & Hh & L).
  unfold all_matches. cbn [exec_loop String.length append match_at].
  pose proof (span_hex_maximal h EmptyString Hh eq_refl) as S.
  rewrite app_empty_r in S. rewrite S.
  apply Nat.leb_le in L. rewrite L.
  now destruct (String.length h).
Qed.

(** X1: every value the heuristic returns occurs in the text as it is. *)
Theorem guessHexesFromText_substring (text x : string) :
  g_sender32 (guessHexesFromText text) = Some x \/
  g_payload (guessHexesFromText text) = Some x ->
  exists pre post, text = pre ++ x ++ post.
Proof.
  destruct (guess_find text) as [-> ->]. rewrite !find_dedup.
  intros [H | H]; apply find_some in H as [Hin _];
    exact (scans_substring _ _ (all_matches_scans text) x Hin).
Qed.

(** X2: the removal of repeated matches changes nothing in the result: each
    field is the first match of the scan that satisfies its rule. *)
Theorem guessHexesFromText_without_Set (text : string) :
  g_sender32 (guessHexesFromText text) = find is_sender32 (all_matches text) /\
  g_payload (guessHexesFromText text) = find is_payload (all_matches text).
Proof.
  destruct (guess_find text) as [-> ->]. now rewrite !find_dedup.
Qed.

(** X3: run on a text that is one token and nothing else, the heuristic
    returns that token, as [sender32] when it has 66 characters, as
    [payload] when it is longer and of even length; so it returns its own
    results unchanged. *)
Theorem guessHexesFromText_token (s : string) :
  hex_token s ->
  guessHexesFromText s =
    {| g_sender32 := if is_sender32 s then Some s else None;
       g_payload := if is_payload s then Some s else None |}.
Proof.
  intros H.
  pose proof (guess_find s) as E. rewrite !find_dedup in E.
  destruct (guessHexesFromText s) as [gs gp]. cbn [g_sender32 g_payload] in E.
  destruct E as [-> ->]. rewrite (all_matches_token s H). reflexivity.
Qed.

End HeuristicMore.

(* ===================================================================== *)
(** * Further properties of the fetchers                                  *)
(* ===================================================================== *)

Section FetchersMore.

Variables LZ_API_BASE LZ_TX_BASE : string.
Variable net : network.

(** X4: [fetchTxHtml] never throws and sends at most one request, to the
    page of the hash; it returns a document exactly when the hash can be
    printed, the request is answered with a success status and the body can
    be read, and [null] in every other case. *)
Theorem fetchTxHtml_degrades (h : value) (t : trace) :
  exists doc t',
    fetchTxHtml LZ_TX_BASE net h t = (Normal doc, t') /\
    (t' = t \/
     exists hs, js_to_string h = Normal hs /\
                t' = (t ++ [EvFetch (detail_request LZ_TX_BASE hs)])%list) /\
    (forall page,
       doc = Some page <->
       exists hs r, js_to_string h = Normal hs /\
                    net t (detail_request LZ_TX_BASE hs) = Normal r /\
                    ok r = true /\ text r = Normal page).
Proof.
  rewrite fetchTxHtml_run.
  destruct (js_to_string h) as [hs|e].
  - eexists _, _. split; [reflexivity|]. split; [right; eauto|].
    intros page. unfold detail_document. split.
    + destruct (net t _) as [r|e] eqn:N; [|discriminate].
      destruct (ok r) eqn:K; [|discriminate].
      destruct (text r) as [p|e] eqn:T; [|discriminate].
      intros H. inversion H; subst. now exists hs, r.
    + intros (hs' & r & E & N & K & T). inversion E; subst hs'.
      now rewrite N, K, T.
  - eexists _, _. split; [reflexivity|]. split; [now left|].
    intros page. split; [discriminate|].
    intros (hs & r & E & _). discriminate.
Qed.

(** X5: [fetchMessagesByOwner] sends exactly one request, with no header,
    and logs one warning exactly when it degrades after a failure: the
    message of the rejection, or [LZ API] and the status for a response
    that is not a success; a readable body that is not [null] logs
    nothing. *)
Theorem fetchMessagesByOwner_effects (owner : string) (page limit : Z) (t : trace) :
  let req := listing_request LZ_API_BASE owner page limit in
  exists fetched warns,
    fetchMessagesByOwner LZ_API_BASE net owner page limit t =
      (Normal fetched, (t ++ EvFetch req :: warns)%list) /\
    req_headers req = [] /\
    (warns = [] \/
     fetched = VArr [] /\ exists e, warns = [EvWarn ["LZ API error:"; message e]]) /\
    (forall e, net t req = Throw e ->
       warns = [EvWarn ["LZ API error:"; message e]]) /\
    (forall r, net t req = Normal r -> ok r = false ->
       warns = [EvWarn ["LZ API error:"; "LZ API " ++ dec (status r)]]) /\
    (forall r j, net t req = Normal r -> ok r = true -> json r = Normal j ->
       nullish j = false -> warns = []).
Proof.
  intros req. rewrite fetchMessagesByOwner_run. cbv zeta. fold req.
  unfold listing_outcome.
  destruct (net t req) as [r|e0]; cbn [obind].
  2:{ eexists _, [_]. split; [reflexivity|]. split; [reflexivity|].
      split; [right; eauto|].
      split; [intros e E; now inversion E|].
      split; intros; discriminate. }
  destruct (ok r) eqn:K; cbn [negb].
  2:{ eexists _, [_]. split; [reflexivity|]. split; [reflexivity|].
      split; [right; eauto|].
      split; [discriminate|].
      split; [intros r' E _; now inversion E|].
      intros r' j E K'. inversion E; subst r'. congruence. }
  destruct (json r) as [j|e1] eqn:J; cbn [obind].
  2:{ eexists _, [_]. split; [reflexivity|]. split; [reflexivity|].
      split; [right; eauto|].
      split; [discriminate|].
      split; [intros r' E K'; inversion E; subst r'; congruence|].
      intros r' j E _ J'. inversion E; subst r'. congruence. }
  unfold or_else, get. destruct (nullish j) eqn:N; cbn [obind].
  - eexists _, [_]. split; [reflexivity|]. split; [reflexivity|].
    split; [right; eauto|].
    split; [discriminate|].
    split; [intros r' E K'; inversion E; subst r'; congruence|].
    intros r' j' E _ J' N'. inversion E; subst r'.
    assert (j' = j) by congruence. subst j'. congruence.
  - assert (X : exists v, (if truthy (opt_get j "messages")
                           then Normal (opt_get j "messages")
                           else Normal (VArr [])) = Normal v)
      by (destruct (truthy (opt_get j "messages")); eauto).
    destruct X as [v ->].
    exists v, []. split; [reflexivity|]. split; [reflexivity|].
    split; [now left|].
    split; [discriminate|].
    split; [intros r' E K'; inversion E; subst r'; congruence | reflexivity].
Qed.

End FetchersMore.

(* ===================================================================== *)
(** * Further properties of the loop and of the handler                   *)
(* ===================================================================== *)

Section LoopMore.

Context {R : Runtime}.

Variables OWNER LZ_API_BASE LZ_TX_BASE : string.
Variable net : network.

Local Notation turn := (pending_entry LZ_TX_BASE net).
Local Notation loop := (pending_loop LZ_TX_BASE net).
Local Notation results := (pending_results OWNER LZ_API_BASE LZ_TX_BASE net).
Local Notation handler := (pending OWNER LZ_API_BASE LZ_TX_BASE net).
Local Notation listing := (listing_request LZ_API_BASE OWNER 1 50).
Local Notation planned := (planned_requests LZ_TX_BASE).

(** The trace of one turn: the planned request of a well-formed record,
    nothing when the turn throws. *)
Lemma turn_trace (m : value) (t : trace) :
  snd (turn m t) =
  (t ++ (if well_formed m then planned_request LZ_TX_BASE m else []))%list.
Proof.
  unfold well_formed, printable, planned_request.
  destruct (status_is_text m) eqn:T; cbn [andb].
  2:{ rewrite (turn_bad_status _ _ m t T). simpl. now rewrite app_nil_r. }
  destruct (qualifies m) eqn:Q; cbn [andb negb orb].
  2:{ rewrite (turn_skip _ _ m t T Q). simpl. now rewrite app_nil_r. }
  destruct (js_to_string (resolved_hash m)) as [h|e] eqn:P.
  - rewrite (turn_emit _ _ m t h Q P).
    destruct (structured m); simpl; [now rewrite app_nil_r | reflexivity].
  - rewrite (turn_unprintable _ _ m t e Q P). simpl. now rewrite app_nil_r.
Qed.

Lemma turn_throw_ill_formed (m : value) (t t' : trace) (e : error) :
  turn m t = (Throw e, t') -> well_formed m = false.
Proof.
  intros H. destruct (well_formed m) eqn:W; [|reflexivity].
  apply (turn_well_formed LZ_TX_BASE net m t) in W as (o & t1 & W).
  rewrite W in H. discriminate.
Qed.

(** The trace of the loop: the planned requests of all the records when it
    runs to its end, of the records before the one that throws otherwise. *)
Lemma pending_loop_trace (msgs : list value) :
  forall out t,
    match loop msgs out t with
    | (Normal _, t') => t' = (t ++ planned msgs)%list
    | (Throw _, t') =>
        exists done bad rest,
          msgs = (done ++ bad :: rest)%list /\
          Forall (fun m => well_formed m = true) done /\
          well_formed bad = false /\
          t' = (t ++ planned done)%list
    end.
Proof.
  induction msgs as [|m rest IH]; intros out t.
  - simpl. now rewrite app_nil_r.
  - cbn [pending_loop]. unfold bind.
    pose proof (turn_trace m t) as T.
    destruct (turn m t) as [[o|e] t1] eqn:E; cbn [snd] in T.
    + assert (W : well_formed m = true)
        by (apply (turn_well_formed LZ_TX_BASE net m t); eauto).
      rewrite W in T.
      specialize (IH (match o with Some s => (out ++ [s])%list | None => out end) t1).
      destruct (loop rest _ t1) as [[res|e] t2].
      * subst. unfold planned_requests. simpl. now rewrite app_assoc.
      * destruct IH as (done & bad & rest' & -> & F & B & ->).
        exists (m :: done), bad, rest'. repeat split; auto.
        subst t1. unfold planned_requests. simpl. now rewrite app_assoc.
    + rewrite (turn_throw_ill_formed m t t1 e E) in T.
      exists [], m, rest.
      split; [reflexivity|]. split; [constructor|].
      split; [eapply turn_throw_ill_formed; eauto|].
      simpl. now rewrite app_nil_r in *.
Qed.

Lemma planned_request_detail (m : value) (ev : event) :
  In ev (planned_request LZ_TX_BASE m) ->
  qualifies m = true /\ structured m = false /\
  exists h, js_to_string (resolved_hash m) = Normal h /\
            ev = EvFetch (detail_request LZ_TX_BASE h).
Proof.
  unfold planned_request.
  destruct (qualifies m); [|intros []].
  destruct (structured m); [intros []|].
  destruct (js_to_string (resolved_hash m)) as [h|e]; [|intros []].
  intros [<- | []]. eauto.
Qed.

Lemma planned_requests_bound (msgs : list value) :
  List.length (planned msgs) <= List.length (filter qualifies msgs).
Proof.
  induction msgs as [|m rest IH]; simpl; [lia|].
  rewrite List.length_app. unfold planned_request.
  destruct (qualifies m); simpl; [|exact IH].
  destruct (structured m); simpl; [lia|].
  destruct (js_to_string (resolved_hash m)); simpl; lia.
Qed.

(** X6: the requests of the loop.  When the loop runs to its end it has
    sent, in the order of the records, one request for the detail page of
    each qualifying record that lacks a sender or a payload, and nothing
    else; when it throws it has sent those of the records before the one
    that throws.  There is at most one request for each qualifying
    record. *)
Theorem pending_loop_requests (msgs : list value) (out : list summary) (t : trace) :
  match loop msgs out t with
  | (Normal _, t') => t' = (t ++ planned msgs)%list
  | (Throw _, t') =>
      exists done bad rest,
        msgs = (done ++ bad :: rest)%list /\
        Forall (fun m => well_formed m = true) done /\
        well_formed bad = false /\
        t' = (t ++ planned done)%list
  end /\
  (forall ev, In ev (planned msgs) ->
     exists m h, In m msgs /\ qualifies m = true /\ structured m = false /\
                 js_to_string (resolved_hash m) = Normal h /\
                 ev = EvFetch (detail_request LZ_TX_BASE h)) /\
  List.length (planned msgs) <= List.length (filter qualifies msgs).
Proof.
  split; [apply pending_loop_trace|].
  split; [|apply planned_requests_bound].
  intros ev H. unfold planned_requests in H. apply in_flat_map in H as (m & Hin & H).
  apply planned_request_detail in H as (Q & S & h & P & ->).
  now exists m, h.
Qed.

(** X7: an entry links the page that was read for it: [lzTxPage] is the
    detail base, a slash and the hash as printed; [srcTxHash] is truthy;
    and the request the turn sent, if it sent one, went to the very URL
    of [lzTxPage], with the [User-Agent] header. *)
Theorem lzTxPage_is_the_page_read (m : value) (t t' : trace) (s : summary) :
  turn m t = (Normal (Some s), t') ->
  truthy (srcTxHash s) = true /\
  exists h,
    js_to_string (srcTxHash s) = Normal h /\
    lzTxPage s = LZ_TX_BASE ++ "/" ++ h /\
    (t' = t \/
     exists req, t' = (t ++ [EvFetch req])%list /\
                 req_url req = lzTxPage s /\
                 req_headers req = [("User-Agent", "auto-scan-worker/1.0")]).
Proof.
  intros H. apply turn_emitted in H as (Q & h & P & H).
  destruct (qualifies_text m Q) as (_ & _ & _ & Th).
  destruct H as [(_ & -> & ->) | (_ & -> & ->)]; cbn [srcTxHash lzTxPage entry_of];
    (split; [exact Th|]); exists h; (split; [exact P|]); (split; [reflexivity|]).
  - now left.
  - right. eexists. split; [reflexivity|]. split; reflexivity.
Qed.

(** X8: a detail page that cannot be had does not cost the record: when
    the request for it fails, is answered with a status that is not a
    success, or brings an empty page, the entry is emitted all the same,
    with the sender and payload of the structured fields, [null] where
    there is none. *)
Theorem entry_survives_missing_page (m : value) (t : trace) (h : string) :
  qualifies m = true ->
  js_to_string (resolved_hash m) = Normal h ->
  truthy (of_nullable (detail_document (net t (detail_request LZ_TX_BASE h)))) = false ->
  exists s t',
    turn m t = (Normal (Some s), t') /\
    sender32 s = structured_sender m /\
    payload s = structured_payload m /\
    (truthy (structured_sender m) = false -> sender32 s = VNull) /\
    (truthy (structured_payload m) = false -> payload s = VNull).
Proof.
  intros Q P D. rewrite (turn_emit _ _ m t h Q P).
  assert (E : enrich (structured_sender m) (structured_payload m)
                (detail_document (net t (detail_request LZ_TX_BASE h))) =
              (structured_sender m, structured_payload m)).
  { destruct (detail_document _) as [[|c d]|]; try reflexivity. discriminate. }
  destruct (structured m); eexists _, _; (split; [reflexivity|]);
    cbn [sender32 payload entry_of]; rewrite ?E; cbn [fst snd];
    (split; [reflexivity|]); (split; [reflexivity|]);
    split; apply first_truthy_falsy.
Qed.

End LoopMore.

Section HandlerMore.

Context {R : Runtime}.

Variables OWNER LZ_API_BASE LZ_TX_BASE : string.
Variable net : network.

Local Notation turn := (pending_entry LZ_TX_BASE net).
Local Notation loop := (pending_loop LZ_TX_BASE net).
Local Notation results := (pending_results OWNER LZ_API_BASE LZ_TX_BASE net).
Local Notation handler := (pending OWNER LZ_API_BASE LZ_TX_BASE net).
Local Notation listing := (listing_request LZ_API_BASE OWNER 1 50).
Local Notation planned := (planned_requests LZ_TX_BASE).

Lemma forallb_well_formed (msgs : list value) :
  forallb well_formed msgs = true <-> Forall (fun m => well_formed m = true) msgs.
Proof. rewrite forallb_forall, Forall_forall. reflexivity. Qed.

(** The characters of a string are records without a status: the loop
    skips them all. *)
Lemma pending_loop_chars (s : string) :
  forall out t, loop (chars s) out t = (Normal out, t).
Proof.
  induction s as [|c s IH]; intros out t; [reflexivity|].
  cbn [chars pending_loop]. unfold bind.
  rewrite (turn_skip LZ_TX_BASE net (VStr (String c EmptyString)) t eq_refl eq_refl).
  apply IH.
Qed.

(** The exception of a turn that throws: the [TypeError] of a status that
    is neither falsy nor a string, or the one raised when the hash of a
    qualifying record is printed. *)
Lemma turn_throw_cases (m : value) (t t' : trace) (e : error) :
  turn m t = (Throw e, t') ->
  (status_is_text m = false /\
   e = TypeError "execStatus.toUpperCase is not a function") \/
  (qualifies m = true /\ js_to_string (resolved_hash m) = Throw e).
Proof.
  intros H. destruct (status_is_text m) eqn:T.
  2:{ rewrite (turn_bad_status _ _ m t T) in H. inversion H. now left. }
  destruct (qualifies m) eqn:Q.
  2:{ rewrite (turn_skip _ _ m t T Q) in H. discriminate. }
  destruct (js_to_string (resolved_hash m)) as [h|e'] eqn:P.
  - rewrite (turn_emit _ _ m t h Q P) in H. destruct (structured m); discriminate.
  - rewrite (turn_unprintable _ _ m t e' Q P) in H. inversion H. now right.
Qed.

(** When the loop throws, the exception is that of the turn on the first
    record that is not well formed. *)
Lemma pending_loop_throw (msgs : list value) :
  forall out t e t',
    loop msgs out t = (Throw e, t') ->
    exists done bad rest t0,
      msgs = (done ++ bad :: rest)%list /\
      Forall (fun m => well_formed m = true) done /\
      well_formed bad = false /\
      turn bad t0 = (Throw e, t').
Proof.
  induction msgs as [|m rest IH]; intros out t e t' H; [discriminate|].
  cbn [pending_loop] in H. unfold bind in H.
  destruct (turn m t) as [[o|e0] t1] eqn:E.
  - assert (W : well_formed m = true)
      by (apply (turn_well_formed LZ_TX_BASE net m t); eauto).
    apply IH in H as (done & bad & rest' & t0 & -> & F & B & H).
    exists (m :: done), bad, rest', t0. repeat split; auto.
  - inversion H; subst. exists [], m, rest, t.
    split; [reflexivity|]. split; [constructor|].
    split; [|exact E].
    destruct (well_formed m) eqn:W; [|reflexivity].
    apply (turn_well_formed LZ_TX_BASE net m t) in W as (o & t2 & W).
    rewrite W in E. discriminate.
Qed.

(** X10: all or nothing.  When the listing is an array of records, the
    handler answers 200 with one result for each qualifying record, [count]
    being their number, if every record is well formed.  Otherwise it
    answers 500 and the results of the other records are lost; the error is
    the message of the exception raised by the first record that is not
    well formed: [execStatus.toUpperCase is not a function] for a status
    that is neither falsy nor a string, the message of the failed
    conversion for a qualifying hash that cannot be printed. *)
Theorem pending_all_or_nothing (t : trace) (msgs : list value) :
  listing_outcome (net t listing) = Normal (VArr msgs) ->
  exists resp t',
    handler t = (Normal resp, t') /\
    if forallb well_formed msgs
    then exists res,
           resp = {| http_status := 200;
                     http_body :=
                       JsonOk OWNER (List.length (filter qualifies msgs)) res |} /\
           Forall2 (entry_for LZ_TX_BASE) (filter qualifies msgs) res
    else exists done bad rest e,
           msgs = (done ++ bad :: rest)%list /\
           Forall (fun m => well_formed m = true) done /\
           well_formed bad = false /\
           resp = {| http_status := 500; http_body := JsonErr (message e) |} /\
           ((status_is_text bad = false /\
             e = TypeError "execStatus.toUpperCase is not a function") \/
            (qualifies bad = true /\
             js_to_string (resolved_hash bad) = Throw e)).
Proof.
  intros L. rewrite pending_run, pending_results_run, L. cbn [iterate].
  destruct (pending_loop_run LZ_TX_BASE net msgs []
              (t ++ [EvFetch listing])%list)
    as [(res & t' & E & F & W) | (e & t' & E & X)].
  - rewrite E. eexists _, _. split; [reflexivity|].
    apply forallb_well_formed in W. rewrite W.
    exists res. split; [|exact F]. simpl.
    now rewrite (Forall2_length F).
  - rewrite E. eexists _, _. split; [reflexivity|].
    destruct (forallb well_formed msgs) eqn:W.
    + apply forallb_well_formed in W. rewrite Forall_forall in W.
      apply Exists_exists in X as (m & Hin & Hm).
      rewrite (W m Hin) in Hm. discriminate.
    + apply pending_loop_throw in E as (done & bad & rest & t0 & -> & F & B & E).
      exists done, bad, rest, e. repeat split; auto.
      exact (turn_throw_cases bad t0 t' e E).
Qed.

(** X11: a [messages] property that is not an array.  A string is iterated
    character by character and gives a 200 with no result; any other value
    (a number, [true], an object) is not iterable and gives a 500 with the
    message of the [TypeError]. *)
Theorem pending_listing_not_an_array (t : trace) (fetched : value) :
  listing_outcome (net t listing) = Normal fetched ->
  (forall msgs, fetched <> VArr msgs) ->
  exists t',
    handler t =
      (Normal (match fetched with
               | VStr _ =>
                   {| http_status := 200; http_body := JsonOk OWNER 0 [] |}
               | _ =>
                   {| http_status := 500;
                      http_body := JsonErr "msgs is not iterable" |}
               end), t').
Proof.
  intros L N. rewrite pending_run, pending_results_run, L.
  destruct fetched; cbn [iterate]; try (eexists; reflexivity).
  - rewrite pending_loop_chars. eexists; reflexivity.
  - now elim (N elems).
Qed.

(** X12: what the handler does to the outside world.  It never throws; it
    first sends the listing request for [OWNER], page 1, limit 50; every
    other request it sends is the request for the detail page of some hash;
    and it logs an error exactly when it answers 500. *)
Theorem pending_effects (t : trace) :
  exists resp evs,
    handler t = (Normal resp, (t ++ EvFetch listing :: evs)%list) /\
    (forall req, In (EvFetch req) evs ->
       exists h, req = detail_request LZ_TX_BASE h) /\
    (http_status resp = 500%Z <->
     exists e, In (EvError "Error /pending:" e) evs).
Proof.
  assert (D : forall msgs req, In (EvFetch req) (planned msgs) ->
                exists h, req = detail_request LZ_TX_BASE h).
  { intros msgs req H. unfold planned_requests in H.
    apply in_flat_map in H as (m & _ & H).
    apply planned_request_detail in H as (_ & _ & h & _ & E).
    inversion E. now exists h. }
  assert (NE : forall msgs e, ~ In (EvError "Error /pending:" e) (planned msgs)).
  { intros msgs e H. unfold planned_requests in H.
    apply in_flat_map in H as (m & _ & H).
    apply planned_request_detail in H as (_ & _ & h & _ & E). discriminate. }
  rewrite pending_run, pending_results_run.
  destruct (listing_outcome (net t listing)) as [fetched|e].
  2:{ eexists _, [_]. split; [reflexivity|].
      split; [intros req [H | []]; discriminate|].
      split; [discriminate | intros (e' & [H | []]); discriminate]. }
  destruct (iterate fetched) as [msgs|e].
  2:{ eexists _, [_]. rewrite <- app_assoc. split; [reflexivity|].
      split; [intros req [H | []]; discriminate|].
      split; [intros _; exists e; now left | reflexivity]. }
  pose proof (pending_loop_trace LZ_TX_BASE net msgs [] (t ++ [EvFetch listing])%list) as T.
  destruct (loop msgs [] _) as [[res|e] t'].
  - subst t'. exists {| http_status := 200;
                        http_body := JsonOk OWNER (List.length res) res |}, (planned msgs).
    rewrite <- app_assoc. split; [reflexivity|].
    split; [apply D|].
    split; [discriminate | intros (e & H); now apply NE in H].
  - destruct T as (done & bad & rest & _ & _ & _ & ->).
    exists {| http_status := 500; http_body := JsonErr (message e) |},
           (planned done ++ [EvError "Error /pending:" e])%list.
    rewrite <- !app_assoc. split; [reflexivity|].
    split.
    + intros req H. apply in_app_or in H as [H | [H | []]];
        [now apply (D done) | discriminate].
    + split; [|reflexivity]. intros _. exists e. apply in_or_app. right. now left.
Qed.

End HandlerMore.

(* ===================================================================== *)
(** * Properties of the start of the process                              *)
(* ===================================================================== *)

Section StartupProperties.

Context {R : Runtime}.

Import Startup.

Lemma lower_upper_ascii (c : ascii) : lower_ascii (upper_ascii c) = lower_ascii c.
Proof. destruct c as [[] [] [] [] [] [] [] []]; reflexivity. Qed.

Lemma ascii_lower_of_upper (s : string) :
  ascii_toLowerCase (ascii_toUpperCase s) = ascii_toLowerCase s.
Proof.
  induction s as [|c s IH]; simpl; [reflexivity|].
  now rewrite lower_upper_ascii, IH.
Qed.

(** The change of case of the ASCII letters gives the same result for two
    strings that are equal up to that case. *)
Lemma ascii_lower_ci (a b : string) :
  ci_eq a b = true -> ascii_toLowerCase a = ascii_toLowerCase b.
Proof.
  intros C. apply String.eqb_eq in C.
  rewrite <- (ascii_lower_of_upper a), C. apply ascii_lower_of_upper.
Qed.

Lemma env_or_set (env : environment) (k v : string) :
  env k = Some v -> env_or env k EmptyString = v.
Proof. unfold env_or. intros ->. now destruct v. Qed.

(** X14: the case of the ASCII letters of [OWNER] does not matter.  On a
    runtime whose [toLowerCase] gives the same result for two strings that
    differ by the case of ASCII letters only (Unicode's does), two
    environments that agree on every other variable and whose owners are
    equal up to that case start the same process, and their [GET /pending]
    is the same computation. *)
Theorem start_owner_case_insensitive (listen : value -> outcome unit)
    (env1 env2 : environment) (a b : string) (net : network) :
  (forall x y, ci_eq x y = true -> toLowerCase x = toLowerCase y) ->
  (forall k, k <> "OWNER" -> env1 k = env2 k) ->
  env1 "OWNER" = Some a ->
  env2 "OWNER" = Some b ->
  ci_eq a b = true ->
  start listen env1 = start listen env2 /\
  serve_pending listen env1 net = serve_pending listen env2 net.
Proof.
  intros L K Ha Hb C.
  assert (S : start listen env1 = start listen env2).
  { unfold start.
    rewrite (env_or_set env1 _ a Ha), (env_or_set env2 _ b Hb), (L a b C).
    unfold env_or.
    rewrite (K "PORT"), (K "LZSCAN_API_BASE"), (K "LZSCAN_TX_BASE")
      by discriminate.
    reflexivity. }
  split; [exact S|]. unfold serve_pending. now rewrite S.
Qed.

End StartupProperties.

(* ===================================================================== *)
(** * The sample runtime                                                  *)
(* ===================================================================== *)

(** From here on the case mappings are those of [Sample.runtime]. *)
#[local] Existing Instance Sample.runtime.

(* ===================================================================== *)
(** * The theorems at work on the sample data                             *)
(* ===================================================================== *)

(** A record whose status is the number 1 is not skipped: the turn throws,
    and the whole request is answered 500 although another record
    qualifies.  A qualifying record whose hash is an object with a
    [toString] property of its own throws as well. *)
Lemma numeric_status_not_skipped :
  qualifies Sample.numeric_status = false /\
  pending_entry Sample.tx_base (Sample.serving []) Sample.numeric_status [] =
    (Throw (TypeError "execStatus.toUpperCase is not a function"), []) /\
  fst (pending Sample.owner Sample.api_base Sample.tx_base
         (Sample.serving [Sample.waiting_lower; Sample.numeric_status]) []) =
    Normal {| http_status := 500;
              http_body := JsonErr "execStatus.toUpperCase is not a function" |} /\
  qualifies Sample.object_hash = true /\
  pending_entry Sample.tx_base (Sample.serving []) Sample.object_hash [] =
    (Throw (TypeError "Cannot convert object to primitive value"), []).
Proof. repeat split; vm_compute; reflexivity. Qed.

(** A status need not be ASCII to qualify: with its two dotless i, this one
    is upper-cased to [WAITING] and the record is emitted, its status as it
    came. *)
Example dotless_status_emitted :
  toUpperCase Sample.dotless_status = "WAITING" /\
  qualifies Sample.waiting_dotless = true /\
  exists s,
    pending_entry Sample.tx_base (Sample.serving []) Sample.waiting_dotless [] =
      (Normal (Some s), []) /\
    statusSummary s = VStr Sample.dotless_status.
Proof.
  split; [reflexivity|]. split; [reflexivity|].
  eexists. split; vm_compute; reflexivity.
Qed.

Lemma pending_entry_emits_waiting_lower :
  well_formed Sample.waiting_lower = true /\
  exists s t',
    pending_entry Sample.tx_base (Sample.serving []) Sample.waiting_lower [] =
      (Normal (Some s), t') /\
    srcTxHash s = resolved_hash Sample.waiting_lower /\
    entry_for Sample.tx_base Sample.waiting_lower s.
Proof.
  split; [reflexivity|].
  exact (pending_entry_emits_iff_qualifies Sample.tx_base (Sample.serving [])
           Sample.waiting_lower [] eq_refl).
Defined.

Lemma pending_entry_skips_delivered :
  well_formed Sample.delivered = true /\
  pending_entry Sample.tx_base (Sample.serving []) Sample.delivered [] =
    (Normal None, []).
Proof. split; vm_compute; reflexivity. Qed.

(** The entry of a record whose status is the lower-case [waiting] carries
    that status as it is. *)
Lemma statusSummary_lower_case :
  exists s,
    pending_entry Sample.tx_base (Sample.serving []) Sample.waiting_lower [] =
      (Normal (Some s), []) /\
    statusSummary s = VStr "waiting" /\
    statusSummary s <> VStr "WAITING".
Proof.
  eexists. split; [vm_compute; reflexivity|].
  split; [reflexivity | discriminate].
Qed.

Lemma statusSummary_as_received_waiting_lower :
  let s := entry_of Sample.tx_base Sample.waiting_lower "0xaaa"
             (VStr Sample.word32, VStr Sample.word64) in
  pending_entry Sample.tx_base (Sample.serving []) Sample.waiting_lower [] =
    (Normal (Some s), []) /\
  statusSummary s = resolved_status Sample.waiting_lower /\
  exists st, statusSummary s = VStr st /\ toUpperCase st = "WAITING".
Proof.
  intros s.
  assert (H : pending_entry Sample.tx_base (Sample.serving []) Sample.waiting_lower [] =
              (Normal (Some s), [])) by (vm_compute; reflexivity).
  split; [exact H|].
  exact (statusSummary_as_received Sample.tx_base (Sample.serving [])
           Sample.waiting_lower [] [] s H).
Defined.

(** A sender and a payload that come with the record are passed on as they
    are: here neither is a hex string of the announced shape. *)
Lemma structured_fields_not_validated :
  exists s,
    pending_entry Sample.tx_base (Sample.serving []) Sample.loose_fields [] =
      (Normal (Some s), []) /\
    sender32 s = VStr "alice" /\
    payload s = VStr "0xabc" /\
    String.length "0xabc" = 5.
Proof.
  eexists. split; [vm_compute; reflexivity|]. repeat split.
Qed.

Lemma sender_payload_provenance_waiting_bare :
  let s := entry_of Sample.tx_base Sample.waiting_bare "0xbbb"
             (VStr Sample.word32, VStr Sample.word64) in
  let t' := [EvFetch (detail_request Sample.tx_base "0xbbb")] in
  pending_entry Sample.tx_base (Sample.serving []) Sample.waiting_bare [] =
    (Normal (Some s), t') /\
  (sender32 s = VNull \/
   exists h, sender32 s = VStr h /\ hex_token h /\ String.length h = 66) /\
  (payload s = VNull \/
   exists p, payload s = VStr p /\ hex_token p /\
             66 < String.length p /\ Nat.even (String.length p) = true).
Proof.
  intros s t'.
  assert (H : pending_entry Sample.tx_base (Sample.serving []) Sample.waiting_bare [] =
              (Normal (Some s), t')) by (vm_compute; reflexivity).
  split; [exact H|].
  exact (sender_payload_provenance Sample.tx_base (Sample.serving [])
           Sample.waiting_bare [] t' s H).
Defined.

Lemma detail_fetch_on_samples :
  (qualifies Sample.waiting_bare = true /\
   snd (pending_entry Sample.tx_base (Sample.serving []) Sample.waiting_bare []) =
     [EvFetch (detail_request Sample.tx_base "0xbbb")]) /\
  (qualifies Sample.waiting_lower = true /\
   snd (pending_entry Sample.tx_base (Sample.serving []) Sample.waiting_lower []) = []).
Proof.
  split; (split; [reflexivity|]).
  - exact (proj1 (detail_fetch_iff_unresolved Sample.tx_base (Sample.serving [])
                    Sample.waiting_bare [] eq_refl)).
  - exact (proj1 (detail_fetch_iff_unresolved Sample.tx_base (Sample.serving [])
                    Sample.waiting_lower [] eq_refl)).
Defined.

(** The listing degrades to the empty array and the handler still answers
    200, whether the network is down or answers 503. *)
Example listing_down :
  fetchMessagesByOwner Sample.api_base Sample.down Sample.owner 1 50 [] =
    (Normal (VArr []),
     [EvFetch (listing_request Sample.api_base Sample.owner 1 50);
      EvWarn ["LZ API error:"; "connect ECONNREFUSED"]]) /\
  fetchMessagesByOwner Sample.api_base Sample.overloaded Sample.owner 1 50 [] =
    (Normal (VArr []),
     [EvFetch (listing_request Sample.api_base Sample.owner 1 50);
      EvWarn ["LZ API error:"; "LZ API 503"]]) /\
  fst (pending Sample.owner Sample.api_base Sample.tx_base Sample.down []) =
    Normal {| http_status := 200; http_body := JsonOk Sample.owner 0 [] |}.
Proof. repeat split; vm_compute; reflexivity. Qed.

(** A body whose [messages] is the number 1 is a successful answer, and the
    number is what the fetcher returns: neither an array nor empty. *)
Lemma messages_number_returned :
  (exists r,
     Sample.listing (VNum Sample.one) []
       (listing_request Sample.api_base Sample.owner 1 50) = Normal r /\
     ok r = true /\
     json r = Normal (VObj [("messages", VNum Sample.one)])) /\
  fetchMessagesByOwner Sample.api_base (Sample.listing (VNum Sample.one))
    Sample.owner 1 50 [] =
    (Normal (VNum Sample.one),
     [EvFetch (listing_request Sample.api_base Sample.owner 1 50)]).
Proof.
  split; [eexists; repeat split|]; vm_compute; reflexivity.
Qed.


(** Two qualifying records around one that is delivered: two results, in
    the order of the records. *)
Example two_qualifying_in_order :
  fst (pending Sample.owner Sample.api_base Sample.tx_base
         (Sample.serving [Sample.waiting_lower; Sample.delivered; Sample.waiting_bare])
         []) =
  Normal {| http_status := 200;
            http_body :=
              JsonOk Sample.owner 2
                [entry_of Sample.tx_base Sample.waiting_lower "0xaaa"
                   (VStr Sample.word32, VStr Sample.word64);
                 entry_of Sample.tx_base Sample.waiting_bare "0xbbb"
                   (VStr Sample.word32, VStr Sample.word64)] |}.
Proof. vm_compute. reflexivity. Qed.

(** Falsy fields are passed over: the empty nested status and [srcTxHash],
    the empty [sender32] and the zero [sender] and [dstEid]; the sender is
    then looked up on the detail page. *)
Example empty_fields_fall_through :
  pending_entry Sample.tx_base (Sample.serving []) Sample.empty_fields [] =
    (Normal (Some {| srcTxHash := VStr "0xfff";
                     dstEid := VNum Sample.eid;
                     sender32 := VStr Sample.word32;
                     payload := VStr Sample.word64;
                     statusSummary := VStr "Waiting";
                     lzTxPage := Sample.tx_base ++ "/0xfff" |}),
     [EvFetch (detail_request Sample.tx_base "0xfff")]).
Proof. vm_compute. reflexivity. Qed.

(** A page with no long enough hexadecimal run gives neither field. *)
Example no_token_no_guess :
  guessHexesFromText "<td>0x1234abcd</td> <td>0xzz</td>" =
    {| g_sender32 := None; g_payload := None |} /\
  guessHexesFromText (Sample.word32 ++ "a") =
    {| g_sender32 := None; g_payload := None |}.
Proof. split; vm_compute; reflexivity. Qed.

(* ===================================================================== *)
(** * The further properties at work on the sample data                   *)
(* ===================================================================== *)

Lemma hex_token_word32 : hex_token Sample.word32.
Proof.
  exists Sample.hex64. split; [reflexivity|]. split; [reflexivity|].
  vm_compute. apply le_n.
Defined.

Lemma guessHexesFromText_substring_page :
  g_sender32 (guessHexesFromText Sample.page) = Some Sample.word32 /\
  exists pre post, Sample.page = pre ++ Sample.word32 ++ post.
Proof.
  assert (H : g_sender32 (guessHexesFromText Sample.page) = Some Sample.word32)
    by (vm_compute; reflexivity).
  split; [exact H|].
  exact (guessHexesFromText_substring Sample.page Sample.word32 (or_introl H)).
Defined.

Lemma guessHexesFromText_token_word32 :
  hex_token Sample.word32 /\
  guessHexesFromText Sample.word32 =
    {| g_sender32 := Some Sample.word32; g_payload := None |}.
Proof.
  split; [exact hex_token_word32|].
  exact (guessHexesFromText_token Sample.word32 hex_token_word32).
Defined.

Lemma lzTxPage_is_the_page_read_waiting_bare :
  let s := entry_of Sample.tx_base Sample.waiting_bare "0xbbb"
             (VStr Sample.word32, VStr Sample.word64) in
  let t' := [EvFetch (detail_request Sample.tx_base "0xbbb")] in
  pending_entry Sample.tx_base (Sample.serving []) Sample.waiting_bare [] =
    (Normal (Some s), t') /\
  truthy (srcTxHash s) = true /\
  exists h,
    js_to_string (srcTxHash s) = Normal h /\
    lzTxPage s = Sample.tx_base ++ "/" ++ h /\
    (t' = [] \/
     exists req, t' = [EvFetch req] /\
                 req_url req = lzTxPage s /\
                 req_headers req = [("User-Agent", "auto-scan-worker/1.0")]).
Proof.
  intros s t'.
  assert (H : pending_entry Sample.tx_base (Sample.serving []) Sample.waiting_bare [] =
              (Normal (Some s), t')) by (vm_compute; reflexivity).
  split; [exact H|].
  exact (lzTxPage_is_the_page_read Sample.tx_base (Sample.serving [])
           Sample.waiting_bare [] t' s H).
Defined.

Lemma entry_survives_missing_page_down :
  qualifies Sample.waiting_bare = true /\
  js_to_string (resolved_hash Sample.waiting_bare) = Normal "0xbbb" /\
  exists s t',
    pending_entry Sample.tx_base Sample.down Sample.waiting_bare [] =
      (Normal (Some s), t') /\
    sender32 s = VNull /\ payload s = VNull.
Proof.
  split; [reflexivity|]. split; [reflexivity|].
  destruct (entry_survives_missing_page (R := Sample.runtime) Sample.tx_base Sample.down
              Sample.waiting_bare [] "0xbbb" eq_refl eq_refl eq_refl)
    as (s & t' & H & Hs & Hp & _).
  exists s, t'. split; [exact H|]. split; [exact Hs | exact Hp].
Defined.

Lemma pending_all_or_nothing_samples :
  (listing_outcome
     (Sample.serving [Sample.waiting_lower; Sample.numeric_status] []
        (listing_request Sample.api_base Sample.owner 1 50)) =
     Normal (VArr [Sample.waiting_lower; Sample.numeric_status]) /\
   exists resp t',
     pending Sample.owner Sample.api_base Sample.tx_base
       (Sample.serving [Sample.waiting_lower; Sample.numeric_status]) [] =
       (Normal resp, t') /\
     exists done bad rest e,
       [Sample.waiting_lower; Sample.numeric_status] = (done ++ bad :: rest)%list /\
       Forall (fun m => well_formed m = true) done /\
       well_formed bad = false /\
       resp = {| http_status := 500; http_body := JsonErr (message e) |} /\
       ((status_is_text bad = false /\
         e = TypeError "execStatus.toUpperCase is not a function") \/
        (qualifies bad = true /\
         js_to_string (resolved_hash bad) = Throw e))) /\
  (listing_outcome
     (Sample.serving [Sample.waiting_lower; Sample.delivered] []
        (listing_request Sample.api_base Sample.owner 1 50)) =
     Normal (VArr [Sample.waiting_lower; Sample.delivered]) /\
   exists resp t',
     pending Sample.owner Sample.api_base Sample.tx_base
       (Sample.serving [Sample.waiting_lower; Sample.delivered]) [] =
       (Normal resp, t') /\
     exists res,
       resp = {| http_status := 200; http_body := JsonOk Sample.owner 1 res |} /\
       Forall2 (entry_for Sample.tx_base) [Sample.waiting_lower] res).
Proof.
  split; (split; [reflexivity|]).
  - exact (pending_all_or_nothing Sample.owner Sample.api_base Sample.tx_base
             (Sample.serving [Sample.waiting_lower; Sample.numeric_status]) []
             [Sample.waiting_lower; Sample.numeric_status] eq_refl).
  - exact (pending_all_or_nothing Sample.owner Sample.api_base Sample.tx_base
             (Sample.serving [Sample.waiting_lower; Sample.delivered]) []
             [Sample.waiting_lower; Sample.delivered] eq_refl).
Defined.

Lemma pending_listing_not_an_array_samples :
  (listing_outcome
     (Sample.listing (VStr "abc") []
        (listing_request Sample.api_base Sample.owner 1 50)) = Normal (VStr "abc") /\
   exists t',
     pending Sample.owner Sample.api_base Sample.tx_base
       (Sample.listing (VStr "abc")) [] =
       (Normal {| http_status := 200; http_body := JsonOk Sample.owner 0 [] |}, t')) /\
  (listing_outcome
     (Sample.listing (VNum Sample.one) []
        (listing_request Sample.api_base Sample.owner 1 50)) =
     Normal (VNum Sample.one) /\
   exists t',
     pending Sample.owner Sample.api_base Sample.tx_base
       (Sample.listing (VNum Sample.one)) [] =
       (Normal {| http_status := 500;
                  http_body := JsonErr "msgs is not iterable" |}, t')).
Proof.
  split; (split; [reflexivity|]).
  - refine (pending_listing_not_an_array Sample.owner Sample.api_base Sample.tx_base
              (Sample.listing (VStr "abc")) [] (VStr "abc") eq_refl _).
    intros msgs H. discriminate H.
  - refine (pending_listing_not_an_array Sample.owner Sample.api_base Sample.tx_base
              (Sample.listing (VNum Sample.one)) [] (VNum Sample.one) eq_refl _).
    intros msgs H. discriminate H.
Defined.

Lemma start_owner_case_insensitive_samples :
  Sample.env_lower "OWNER" = Some "0xabcdef" /\
  Sample.env_mixed "OWNER" = Some "0xAbCdEf" /\
  ci_eq "0xabcdef" "0xAbCdEf" = true /\
  Startup.start Sample.listens Sample.env_lower =
  Startup.start Sample.listens Sample.env_mixed /\
  Startup.serve_pending Sample.listens Sample.env_lower Sample.down =
  Startup.serve_pending Sample.listens Sample.env_mixed Sample.down.
Proof.
  split; [reflexivity|]. split; [reflexivity|]. split; [reflexivity|].
  refine (start_owner_case_insensitive Sample.listens Sample.env_lower
            Sample.env_mixed "0xabcdef" "0xAbCdEf" Sample.down
            ascii_lower_ci _ eq_refl eq_refl eq_refl).
  intros k Hk. unfold Sample.env_lower, Sample.env_mixed.
  destruct (String.eqb_spec k "OWNER") as [E|E]; [now elim Hk | reflexivity].
Defined.

(** The process started without an owner exits; started with one, it
    listens on port 3000 for the owner in lower case, or dies when the port
    cannot be bound. *)
Example start_samples :
  Startup.start Sample.listens (fun _ => None) =
    Startup.Exited 1
      "Please set OWNER env var (the wallet address that sent the bridge)." /\
  Startup.start Sample.listens Sample.env_mixed =
    Startup.Listening
      {| Startup.OWNER := "0xabcdef";
         Startup.PORT := VNum {| num_is_zero := false; num_text := "3000" |};
         Startup.LZ_API_BASE := "https://api.testnet.layerzeroscan.com";
         Startup.LZ_TX_BASE := "https://testnet.layerzeroscan.com/tx" |}
      "Server listening on 3000 | OWNER=0xabcdef" /\
  Startup.start Sample.port_taken Sample.env_mixed =
    Startup.Crashed (Error "listen EADDRINUSE: address already in use").
Proof. repeat split; vm_compute; reflexivity. Qed.
